(** * Relay-log ingestion: location recorder and binlog reader

    A shallow embedding of

    - [dm/syncer/binlog_locations.go]: the [locationRecorder] that keeps the
      start and end location of the current event and the end location of
      the last transaction;
    - the relay [BinlogReader] of package [streamer]: [parseFile] with its
      per-event callback, [needSwitchSubDir], [fileSizeUpdated],
      [extractPos] and the helpers they call.

    Go integers are [Z]; Go strings are [string] (byte strings); a function
    returning [(value, error)] returns a [Result]; a Go [panic] is the third
    constructor of [Result].  Locks, logging and goroutines are left out:
    every function is modelled for one uninterrupted, uncancelled run. *)

From Stdlib Require Import ZArith List String Ascii Bool Lia DecimalString.
Import ListNotations.
Local Open Scope string_scope.
Local Open Scope Z_scope.

(** ** Events of the replication library (go-mysql) *)

Module Replication.

(** [mysql.Position]: a binlog file name and an offset in it. *)
Record Position : Type := mkPosition {
  Name : string;
  Pos : Z
}.

(** [replication.EventType] is a byte; the values are those of go-mysql. *)
Definition QUERY_EVENT : Z := 2.
Definition ROTATE_EVENT : Z := 4.
Definition FORMAT_DESCRIPTION_EVENT : Z := 15.
Definition XID_EVENT : Z := 16.
Definition HEARTBEAT_EVENT : Z := 27.
Definition IGNORABLE_EVENT : Z := 28.
Definition PREVIOUS_GTIDS_EVENT : Z := 35.
Definition MARIADB_GTID_EVENT : Z := 162.
Definition MARIADB_GTID_LIST_EVENT : Z := 163.

(** Header flags. *)
Definition LOG_EVENT_ARTIFICIAL_F : Z := 32.   (* 0x0020 *)
Definition LOG_EVENT_RELAY_LOG_F : Z := 64.    (* 0x0040 *)
Definition BINLOG_MARIADB_FL_DDL : Z := 32.

Record EventHeader : Type := mkHeader {
  Timestamp : Z;
  EventType : Z;
  ServerID : Z;
  LogPos : Z;
  Flags : Z
}.

(** The decoded body, the interface value [e.Event]; [G] is the type of
    GTID sets. *)
Inductive Event (G : Type) : Type :=
  | RotateEvent (RotatePosition : Z) (NextLogName : string)
  | XIDEvent (XID : Z) (GSet : G)
  | QueryEvent (Query : string) (GSet : G)
  | MariadbGTIDEvent (GTIDFlags : Z)
  | GenericEvent.

Arguments RotateEvent {G} RotatePosition NextLogName.
Arguments XIDEvent {G} XID GSet.
Arguments QueryEvent {G} Query GSet.
Arguments MariadbGTIDEvent {G} GTIDFlags.
Arguments GenericEvent {G}.

(** [replication.BinlogEvent]; the field [Event] is [Body] here, [Event]
    being the name of its type. *)
Record BinlogEvent (G : Type) : Type := mkEvent {
  Header : EventHeader;
  Body : Event G
}.

Arguments mkEvent {G} Header Body.
Arguments Header {G} _.
Arguments Body {G} _.

(** [MariadbGTIDEvent.IsDDL]. *)
Definition IsDDL (flags : Z) : bool :=
  negb (Z.land flags BINLOG_MARIADB_FL_DDL =? 0).

End Replication.

(** ** dm/syncer/binlog_locations.go *)

Module Syncer.
Import Replication.

Section Recorder.

(** [mysql.GTIDSet], an interface of go-mysql. *)
Variable GTIDSet : Type.

(** [binlog.Location] of dm/pkg/binlog: a position (the field [Position],
    [LPosition] here), a GTID set and the relay sub-directory suffix. *)
Record Location : Type := mkLocation {
  LPosition : Position;
  gtidSet : GTIDSet;
  Suffix : Z
}.

(** Modelled from the spec: [binlog.FileHeaderLen] is declared in
    dm/pkg/binlog, which is not part of the sources; the spec gives the
    file-header length as 4. *)
Definition FileHeaderLen : Z := 4.

(** The conversion of a given GTID set to one of the flavor of the current
    set (first argument); [None] is an error. *)
Variable convertGTID : GTIDSet -> GTIDSet -> option GTIDSet.

(** Modelled from the spec: [Location.SetGTID] is declared in
    dm/pkg/binlog, which is not part of the sources.  It converts the given
    set and stores it as the location's GTID set, or fails and leaves the
    location as it is; the position is not touched. *)

Definition SetGTID (l : Location) (gset : GTIDSet) : option Location :=
  match convertGTID (gtidSet l) gset with
  | Some g => Some (mkLocation (LPosition l) g (Suffix l))
  | None => None
  end.

(** Modelled from the spec: [Location.Clone] is declared in
    dm/pkg/binlog; a location is cloned "to avoid aliasing with the
    mutable current-end slot", so the clone is an equal value. *)
Definition Clone (l : Location) : Location := l.

(** [strings.TrimSpace] of the Go library. *)
Variable TrimSpace : string -> string.

Record locationRecorder : Type := mkRecorder {
  curStartLocation : Location;
  curEndLocation : Location;
  txnEndLocation : Location;
  inDML : bool
}.

Definition set_curEnd (l : locationRecorder) (loc : Location) : locationRecorder :=
  mkRecorder (curStartLocation l) loc (txnEndLocation l) (inDML l).

Definition set_inDML (l : locationRecorder) (b : bool) : locationRecorder :=
  mkRecorder (curStartLocation l) (curEndLocation l) (txnEndLocation l) b.

Definition reset (l : locationRecorder) (loc : Location) : locationRecorder :=
  mkRecorder loc loc loc (inDML l).

Definition saveTxnEndLocation (l : locationRecorder) : locationRecorder :=
  mkRecorder (curStartLocation l) (curEndLocation l)
             (Clone (curEndLocation l)) (inDML l).

Definition shouldUpdatePos (e : BinlogEvent GTIDSet) : bool :=
  let t := EventType (Header e) in
  if (t =? FORMAT_DESCRIPTION_EVENT) || (t =? HEARTBEAT_EVENT)
     || (t =? IGNORABLE_EVENT) || (t =? PREVIOUS_GTIDS_EVENT)
     || (t =? MARIADB_GTID_LIST_EVENT)
  then false
  else if negb (Z.land (Flags (Header e)) LOG_EVENT_ARTIFICIAL_F =? 0)
  then false
  else true.

(** A failure of [SetGTID] is logged ([DPanic] only logs outside
    development mode) and the location keeps its GTID set. *)
Definition setCurrentGTID (l : locationRecorder) (gset : GTIDSet) : locationRecorder :=
  match SetGTID (curEndLocation l) gset with
  | Some loc => set_curEnd l loc
  | None => l
  end.

Definition set_curEnd_position (l : locationRecorder) (p : Position) : locationRecorder :=
  set_curEnd l (mkLocation p (gtidSet (curEndLocation l)) (Suffix (curEndLocation l))).

Definition endName (l : locationRecorder) : string :=
  Name (LPosition (curEndLocation l)).

Definition endPos (l : locationRecorder) : Z :=
  Pos (LPosition (curEndLocation l)).

Definition update (l : locationRecorder) (e : BinlogEvent GTIDSet) : locationRecorder :=
  let l := mkRecorder (curEndLocation l) (curEndLocation l)
                      (txnEndLocation l) (inDML l) in
  if negb (shouldUpdatePos e) then l
  else
    match Body e with
    | RotateEvent _ nextName =>
        if negb (String.eqb (endName l) nextName)
        then saveTxnEndLocation
               (set_curEnd_position l (mkPosition nextName FileHeaderLen))
        else l
    | body =>
        let l := set_curEnd_position l (mkPosition (endName l) (LogPos (Header e))) in
        match body with
        | XIDEvent _ gset =>
            set_inDML (saveTxnEndLocation (setCurrentGTID l gset)) false
        | QueryEvent q gset =>
            let query := TrimSpace q in
            let l := if String.eqb query "BEGIN" then set_inDML l true
                     else if String.eqb query "COMMIT" then set_inDML l false
                     else l in
            if inDML l then l
            else saveTxnEndLocation (setCurrentGTID l gset)
        | MariadbGTIDEvent flags =>
            if negb (IsDDL flags) then set_inDML l true else l
        | _ => l
        end
    end.

(** Feeding a sequence of events, oldest first. *)
Definition updates (l : locationRecorder) (es : list (BinlogEvent GTIDSet)) : locationRecorder :=
  fold_left update es l.

Definition isRotate (e : BinlogEvent GTIDSet) : bool :=
  match Body e with RotateEvent _ _ => true | _ => false end.

(** The trimmed text of a query event. *)
Definition queryText (e : BinlogEvent GTIDSet) : option string :=
  match Body e with QueryEvent q _ => Some (TrimSpace q) | _ => None end.

(** A query event whose trimmed text is not [COMMIT]. *)
Definition notCommitQuery (e : BinlogEvent GTIDSet) : bool :=
  match queryText e with
  | Some q => negb (String.eqb q "COMMIT")
  | None => false
  end.

End Recorder.

Arguments mkLocation {GTIDSet} LPosition gtidSet Suffix.
Arguments LPosition {GTIDSet} _.
Arguments gtidSet {GTIDSet} _.
Arguments Suffix {GTIDSet} _.
Arguments mkRecorder {GTIDSet} curStartLocation curEndLocation txnEndLocation inDML.
Arguments curStartLocation {GTIDSet} _.
Arguments curEndLocation {GTIDSet} _.
Arguments txnEndLocation {GTIDSet} _.
Arguments inDML {GTIDSet} _.
Arguments SetGTID {GTIDSet} convertGTID l gset.
Arguments Clone {GTIDSet} l.
Arguments reset {GTIDSet} l loc.
Arguments saveTxnEndLocation {GTIDSet} l.
Arguments shouldUpdatePos {GTIDSet} e.
Arguments setCurrentGTID {GTIDSet} convertGTID l gset.
Arguments endName {GTIDSet} l.
Arguments endPos {GTIDSet} l.
Arguments update {GTIDSet} convertGTID TrimSpace l e.
Arguments updates {GTIDSet} convertGTID TrimSpace l es.
Arguments isRotate {GTIDSet} e.
Arguments queryText {GTIDSet} TrimSpace e.
Arguments notCommitQuery {GTIDSet} TrimSpace e.
Arguments set_curEnd {GTIDSet} l loc.
Arguments set_inDML {GTIDSet} l b.
Arguments set_curEnd_position {GTIDSet} l p.

End Syncer.


(** ** The relay binlog reader (package streamer) *)

Module Streamer.
Import Replication.

(** *** Errors and results *)

(** Error values: those of the Go library and of other packages
    ([ErrExternal]: an [os], decoder, watcher or context error, known by its
    message) and those built with the [errors] package. *)
Inductive error : Type :=
| ErrExternal (msg : string)
| ErrNew (msg : string)
| ErrNotFound (msg : string)
| ErrNotValid (msg : string)
| ErrTrace (cause : error)
| ErrAnnotate (cause : error) (msg : string).

(** [err.Error()]: tracing keeps the message, annotating prefixes it. *)
Fixpoint Error (e : error) : string :=
  match e with
  | ErrExternal m => m
  | ErrNew m => m
  | ErrNotFound m => m ++ " not found"
  | ErrNotValid m => m ++ " not valid"
  | ErrTrace c => Error c
  | ErrAnnotate c m => m ++ ": " ++ Error c
  end.

(** The outcome of a call: a value with a nil error, a non-nil error, or a
    panic that unwinds the caller. *)
Inductive Result (A : Type) : Type :=
| Ok (a : A)
| Err (e : error)
| Panic (msg : string).

Arguments Ok {A} a.
Arguments Err {A} e.
Arguments Panic {A} msg.

(** *** Strings *)

(** [%d] of an integer. *)
Definition fmtInt (z : Z) : string := NilZero.string_of_int (Z.to_int z).

(** [%v] of a slice of strings. *)
Definition fmtStrings (l : list string) : string :=
  "[" ++ String.concat " " l ++ "]".

(** [strings.Contains]. *)
Fixpoint Contains (s substr : string) : bool :=
  if prefix substr s then true
  else match s with
       | EmptyString => false
       | String _ s' => Contains s' substr
       end.

(** [strings.HasSuffix]. *)
Definition HasSuffix (s suffix : string) : bool :=
  let n := String.length s in
  let m := String.length suffix in
  (m <=? n)%nat && String.eqb (substring (n - m) m s) suffix.

(** [strings.Index]: the offset of the first occurrence, or -1. *)
Definition Index (s substr : string) : Z :=
  match index 0 substr s with
  | Some n => Z.of_nat n
  | None => -1
  end.

(** [len] of a string, as an integer. *)
Definition len (s : string) : Z := Z.of_nat (String.length s).

(** [s[i:j]] for [0 <= i <= j <= len s]. *)
Definition slice (s : string) (i j : Z) : string :=
  substring (Z.to_nat i) (Z.to_nat (j - i)) s.

(** Conversion of an [int64] to [uint64]. *)
Definition to_uint64 (z : Z) : Z := z mod 2 ^ 64.

Definition posUUIDSuffixSeparator : string := "|".

(** Modelled from the spec: [baseSeqSeparator] is declared in another file
    of the package; the spec gives the encoded name as
    [<baseName>[|<epochSuffix>].<sequenceNumber>], and the source comment's
    example is [mysql-bin|000002.000003]. *)
Definition baseSeqSeparator : string := ".".

(** *** What the reader is given *)

(** [binlogFile], the parsed form of a relay file name; the reader reads
    these two fields. *)
Record binlogFile : Type := mkBinlogFile {
  baseName : string;
  seq : string
}.

(** The helpers of the repository that the reader calls and that are not
    among the sources, and [path.Join].  A helper that returns
    [(value, error)] returns [inl] for a non-nil error. *)
Record Helpers : Type := mkHelpers {
  parseBinlogFile : string -> error + binlogFile;
  constructBinlogFilename : string -> string -> string;
  ParseSuffixForUUID : string -> error + (string * Z);
  SuffixIntToStr : Z -> string;
  GetUUIDBySuffix : list string -> string -> string;
  MetaFilename : string;
  Join : string -> string -> string
}.

(** The file system as one call observes it: [os.Stat(path).Size()] and the
    package's [readDir]. *)
Record FileSystem : Type := mkFileSystem {
  Stat : string -> error + Z;
  readDir : string -> error + list string
}.

(** What the polling watcher does during one wait: the errors of [Add] and
    [Start], and the result its goroutine hands over. *)
Record Watcher : Type := mkWatcher {
  addErr : option error;
  startErr : option error;
  watchPath : string;
  watchErr : option error
}.

Record BinlogReader : Type := mkReader {
  RelayDir : string;
  indexPath : string;
  uuids : list string;
  latestServerID : Z
}.

Definition set_latestServerID (r : BinlogReader) (id : Z) : BinlogReader :=
  mkReader (RelayDir r) (indexPath r) (uuids r) id.

Section Reader.

(** The type of GTID sets carried by events; the reader does not look at
    them. *)
Variable G : Type.

Variable H : Helpers.

(** The state a parse runs in: the reader and the events sent to the
    [LocalStreamer]'s channel so far, oldest first. *)
Record State : Type := mkState {
  reader : BinlogReader;
  sent : list (BinlogEvent G)
}.

(** A computation on the state; the state is kept when it fails. *)
Definition M (A : Type) : Type := State -> State * Result A.

Definition ret {A : Type} (a : A) : M A := fun st => (st, Ok a).

Definition fail {A : Type} (e : error) : M A := fun st => (st, Err e).

Definition panic {A : Type} (msg : string) : M A := fun st => (st, Panic msg).

Definition bind {A B : Type} (m : M A) (k : A -> M B) : M B :=
  fun st =>
    match m st with
    | (st', Ok a) => k a st'
    | (st', Err e) => (st', Err e)
    | (st', Panic msg) => (st', Panic msg)
    end.

(** [s.ch <- e], with a consumer that takes the event. *)
Definition send (e : BinlogEvent G) : M unit :=
  fun st => (mkState (reader st) (sent st ++ [e]), Ok tt).

Definition recordServerID (id : Z) : M unit :=
  fun st => (mkState (set_latestServerID (reader st) id) (sent st), Ok tt).

Definition getReader : M BinlogReader := fun st => (st, Ok (reader st)).

End Reader.

Arguments ret {G A} a.
Arguments fail {G A} e.
Arguments panic {G A} msg.
Arguments bind {G A B} m k.
Arguments send {G} e.
Arguments recordServerID {G} id.
Arguments getReader {G}.
Arguments mkState {G} reader sent.
Arguments reader {G} _.
Arguments sent {G} _.

Notation "x <- m ;; k" := (bind m (fun x => k))
  (at level 61, m at next level, right associativity).
Notation "m ;;; k" := (bind m (fun _ => k))
  (at level 61, right associativity).

Section Operations.

Variable G : Type.
Variable H : Helpers.

(** [constructBinlogName]: base name, separator, epoch suffix, separator,
    sequence. *)
Definition constructBinlogName (originalName : binlogFile) (uuidSuffix : string) : string :=
  baseName originalName ++ posUUIDSuffixSeparator ++ uuidSuffix
    ++ baseSeqSeparator ++ seq originalName.

(** The loop of [getNextUUID] over the indexes [n-1], ..., [0]. *)
Fixpoint scanNextUUID (us : list string) (uuid : string) (n : nat) : option string :=
  match n with
  | O => None
  | S i =>
      if String.eqb (nth i us "") uuid then Some (nth (S i) us "")
      else scanNextUUID us uuid i
  end.

Definition getNextUUID (r : BinlogReader) (uuid : string) : string * string :=
  match scanNextUUID (uuids r) uuid (List.length (uuids r) - 1) with
  | Some nextUUID =>
      let suffixInt :=
        match ParseSuffixForUUID H nextUUID with
        | inr (_, n) => n
        | inl _ => 0
        end in
      (nextUUID, SuffixIntToStr H suffixInt)
  | None => ("", "")
  end.

(** The loop of [getFirstBinlogName] over the directory's entries. *)
Fixpoint firstBinlogIn (fpath : string) (files : list string) : Result string :=
  match files with
  | [] => Err (ErrNotFound ("binlog files in dir " ++ fpath))
  | f :: rest =>
      if String.eqb f (MetaFilename H) then firstBinlogIn fpath rest
      else match parseBinlogFile H f with
           | inl _ => Err (ErrNotValid ("binlog file " ++ f))
           | inr _ => Ok f
           end
  end.

Definition getFirstBinlogName (r : BinlogReader) (fs : FileSystem) (uuid : string)
    : Result string :=
  let fpath := Join H (RelayDir r) uuid in
  match readDir fs fpath with
  | inl e => Err (ErrAnnotate e ("get binlog file for dir " ++ fpath))
  | inr files => firstBinlogIn fpath files
  end.

Definition fileSizeUpdated (fs : FileSystem) (path : string) (latestSize : Z) : Result Z :=
  match Stat fs path with
  | inl e => Err (ErrAnnotate e ("get stat for relay log " ++ path))
  | inr currSize =>
      if currSize =? latestSize then Ok 0
      else if currSize >? latestSize then Ok 1
      else Panic ("relay log file size has changed from " ++ fmtInt latestSize
                    ++ " to " ++ fmtInt currSize)
  end.

(** The results of [needSwitchSubDir] other than the error. *)
Record SwitchDecision : Type := mkSwitch {
  sdNeedSwitch : bool;
  sdNeedReParse : bool;
  sdNextUUID : string;
  sdNextBinlogName : string
}.

Definition needSwitchSubDir (r : BinlogReader) (fs : FileSystem)
    (currentUUID latestFilePath : string) (latestFileSize : Z) : Result SwitchDecision :=
  let nextUUID := fst (getNextUUID r currentUUID) in
  if len nextUUID =? 0 then Ok (mkSwitch false false "" "")
  else
    match getFirstBinlogName r fs nextUUID with
    | Err e => Err (ErrTrace e)
    | Panic msg => Panic msg
    | Ok nextBinlogName =>
        match fileSizeUpdated fs latestFilePath latestFileSize with
        | Err e => Err (ErrTrace e)
        | Panic msg => Panic msg
        | Ok cmp =>
            if cmp <? 0
            then Err (ErrNew ("file size of relay log " ++ latestFilePath
                                ++ " become smaller"))
            else if cmp >? 0 then Ok (mkSwitch false true "" "")
            else Ok (mkSwitch true false nextUUID nextBinlogName)
        end
    end.

(** [relaySubDirUpdated]: the watcher is set up, the size is checked once
    more, and the result of the watching goroutine is awaited. *)
Definition relaySubDirUpdated (w : Watcher) (fs : FileSystem)
    (dir latestFilePath : string) (latestFileSize : Z) : Result string :=
  match addErr w with
  | Some e => Err (ErrAnnotate e ("add watch for relay log dir " ++ dir))
  | None =>
      match startErr w with
      | Some e => Err (ErrTrace e)
      | None =>
          match fileSizeUpdated fs latestFilePath latestFileSize with
          | Err e => Err (ErrTrace e)
          | Panic msg => Panic msg
          | Ok cmp =>
              if cmp <? 0
              then Err (ErrNew ("file size of relay log " ++ latestFilePath
                                  ++ " become smaller"))
              else if cmp >? 0 then Ok latestFilePath
              else match watchErr w with
                   | Some e => Err e
                   | None => Ok (watchPath w)
                   end
          end
      end
  end.

(** Modelled from the spec: [utils.GenFakeRotateEvent] is not among the
    sources.  It synthesizes the rotation event that opens a file: an event
    of type ROTATE with a zero timestamp and a zero log position (the
    callback tells a synthetic rotation from a genuine one by these), flagged
    artificial as the replication source's own fake rotation is, and
    carrying the file name, the offset and the server id it is given. *)
Definition GenFakeRotateEvent (nextLogName : string) (logPos : Z) (serverID : Z)
    : error + BinlogEvent G :=
  inr (mkEvent (mkHeader 0 ROTATE_EVENT serverID 0 LOG_EVENT_ARTIFICIAL_F)
               (RotateEvent logPos nextLogName)).

(** The callback of [parseFile]; [latestPos] is the variable it closes
    over, and its new value is returned.  The callback's own error is
    always nil. *)
Definition onEventFunc (uuidSuffix : string) (latestPos : Z) (e : BinlogEvent G) : M G Z :=
  if negb (Z.land (Flags (Header e)) 64 =? 0) then ret latestPos
  else
    recordServerID (ServerID (Header e)) ;;;
    if EventType (Header e) =? FORMAT_DESCRIPTION_EVENT then
      send e ;;; ret latestPos
    else if EventType (Header e) =? ROTATE_EVENT then
      match Body e with
      | RotateEvent p nextLogName =>
          match parseBinlogFile H nextLogName with
          | inl _ => panic "invalid memory address or nil pointer dereference"
          | inr parsed =>
              let nameWithSuffix := constructBinlogName parsed uuidSuffix in
              let latestPos :=
                if negb (Timestamp (Header e) =? 0) && negb (LogPos (Header e) =? 0)
                then LogPos (Header e) else latestPos in
              send (mkEvent (Header e) (RotateEvent p nameWithSuffix)) ;;;
              ret latestPos
          end
      | _ => panic "interface conversion: not a *replication.RotateEvent"
      end
    else
      send e ;;; ret (LogPos (Header e)).

(** The decoder delivers its events to the callback in order. *)
Fixpoint deliver (uuidSuffix : string) (latestPos : Z) (es : list (BinlogEvent G)) : M G Z :=
  match es with
  | [] => ret latestPos
  | e :: rest =>
      p <- onEventFunc uuidSuffix latestPos e ;;
      deliver uuidSuffix p rest
  end.

(** What surrounds one call of [parseFile]: the decoder
    ([parser.ParseFile]: the events it decodes from a path and an offset and
    the error it ends with), the file system at the switch decision, and
    the watcher and the file system at the change-wait. *)
Record Env : Type := mkEnv {
  decode : string -> Z -> list (BinlogEvent G) * option error;
  fsSwitch : FileSystem;
  watcher : Watcher;
  fsWait : FileSystem
}.

(** The results of [parseFile] other than the error. *)
Record ParseResult : Type := mkParse {
  needSwitch : bool;
  needReParse : bool;
  latestPos : Z;
  nextUUID : string;
  nextBinlogName : string
}.

(** The soft end of stream: the file may be the last one and the decoder's
    message has [err EOF] in it. *)
Definition softEOF (possibleLast : bool) (derr : option error) : bool :=
  match derr with
  | Some e => possibleLast && Contains (Error e) "err EOF"
  | None => false
  end.

(** The part of [parseFile] after the decoder has returned without a fatal
    error. *)
Definition afterDecode (env : Env) (relayLogFile relayLogDir fullPath currentUUID : string)
    (possibleLast : bool) (latestPos : Z) : M G ParseResult :=
  if negb possibleLast then ret (mkParse false false latestPos "" "")
  else
    r <- getReader ;;
    match needSwitchSubDir r (fsSwitch env) currentUUID fullPath latestPos with
    | Err e => fail (ErrTrace e)
    | Panic msg => panic msg
    | Ok d =>
        if sdNeedReParse d then ret (mkParse false true latestPos "" "")
        else if sdNeedSwitch d
        then ret (mkParse true false 0 (sdNextUUID d) (sdNextBinlogName d))
        else
          match relaySubDirUpdated (watcher env) (fsWait env) relayLogDir fullPath latestPos with
          | Err e => fail (ErrTrace e)
          | Panic msg => panic msg
          | Ok updatedPath =>
              if HasSuffix updatedPath relayLogFile
              then ret (mkParse false true latestPos "" "")
              else ret (mkParse false false latestPos "" "")
          end
    end.

(** The part of [parseFile] from the fake rotation event to the return of
    the decoder: the value is the callback's [latestPos]. *)
Definition parseEvents (env : Env) (relayLogFile : string) (offset : Z)
    (fullPath : string) (firstParse : bool) (uuidSuffix : string) : M G Z :=
  p0 <- (if firstParse then
           r <- getReader ;;
           match GenFakeRotateEvent relayLogFile (to_uint64 offset) (latestServerID r) with
           | inl e2 =>
               fail (ErrAnnotate e2 ("generate fake RotateEvent for (" ++ relayLogFile
                                       ++ ": " ++ fmtInt offset ++ ")"))
           | inr e => onEventFunc uuidSuffix offset e
           end
         else ret offset) ;;
  deliver uuidSuffix p0 (fst (decode env fullPath offset)).

Definition parseFile (env : Env) (relayLogFile : string) (offset : Z)
    (relayLogDir : string) (firstParse : bool) (currentUUID : string)
    (possibleLast : bool) : M G ParseResult :=
  match ParseSuffixForUUID H currentUUID with
  | inl e => fail (ErrTrace e)
  | inr (_, suffixInt) =>
      let uuidSuffix := SuffixIntToStr H suffixInt in
      let fullPath := Join H relayLogDir relayLogFile in
      p <- parseEvents env relayLogFile offset fullPath firstParse uuidSuffix ;;
      let derr := snd (decode env fullPath offset) in
      if softEOF possibleLast derr
      then afterDecode env relayLogFile relayLogDir fullPath currentUUID possibleLast p
      else match derr with
           | Some e => fail (ErrTrace e)
           | None =>
               afterDecode env relayLogFile relayLogDir fullPath currentUUID possibleLast p
           end
  end.

(** The last element of the index, [r.uuids[len(r.uuids)-1]]. *)
Definition lastUUID (us : list string) : string := last us "".

Definition extractPos (r : BinlogReader) (pos : Position) : Result (string * string * Position) :=
  if Z.of_nat (List.length (uuids r)) =? 0
  then Err (ErrNotFound ("relay sub dir with index file " ++ indexPath r))
  else
    match parseBinlogFile H (Name pos) with
    | inl _ => Panic "invalid memory address or nil pointer dereference"
    | inr parsed =>
        let sepIdx := Index (baseName parsed) posUUIDSuffixSeparator in
        if (sepIdx >? 0) && (sepIdx + len posUUIDSuffixSeparator <? len (baseName parsed))
        then
          let realBaseName := slice (baseName parsed) 0 sepIdx in
          let masterUUIDSuffix :=
            slice (baseName parsed) (sepIdx + len posUUIDSuffixSeparator)
                  (len (baseName parsed)) in
          let uuid := GetUUIDBySuffix H (uuids r) masterUUIDSuffix in
          if len uuid >? 0
          then Ok (uuid, masterUUIDSuffix,
                   mkPosition (constructBinlogFilename H realBaseName (seq parsed)) (Pos pos))
          else Err (ErrNotFound ("UUID suffix " ++ masterUUIDSuffix ++ " with UUIDs "
                                   ++ fmtStrings (uuids r)))
        else
          let uuid := lastUUID (uuids r) in
          match ParseSuffixForUUID H uuid with
          | inl e => Err (ErrTrace e)
          | inr (_, suffixInt) => Ok (uuid, SuffixIntToStr H suffixInt, pos)
          end
    end.

(** The same surroundings with a decoder that decodes the same events and
    ends without an error. *)
Definition withoutDecodeError (env : Env) : Env :=
  mkEnv (fun path offset => (fst (decode env path offset), None))
        (fsSwitch env) (watcher env) (fsWait env).

(** The state with another UUID index. *)
Definition withUUIDs (us : list string) (st : State G) : State G :=
  mkState (mkReader (RelayDir (reader st)) (indexPath (reader st)) us
                    (latestServerID (reader st)))
          (sent st).

(** The state seen from a caller that had already sent [s0] and holds the
    index [us]: the frame in which a run of the callback is placed. *)
Definition reframe (us : list string) (s0 : list (BinlogEvent G)) (st : State G) : State G :=
  mkState (mkReader (RelayDir (reader st)) (indexPath (reader st)) us
                    (latestServerID (reader st)))
          (s0 ++ sent st).

End Operations.

Arguments reframe {G} us s0 st.
Arguments GenFakeRotateEvent {G} nextLogName logPos serverID.
Arguments onEventFunc {G} H uuidSuffix latestPos e _.
Arguments deliver {G} H uuidSuffix latestPos es _.
Arguments mkEnv {G} decode fsSwitch watcher fsWait.
Arguments decode {G} _ _ _.
Arguments fsSwitch {G} _.
Arguments watcher {G} _.
Arguments fsWait {G} _.
Arguments afterDecode {G} H env relayLogFile relayLogDir fullPath currentUUID
  possibleLast latestPos _.
Arguments parseEvents {G} H env relayLogFile offset fullPath firstParse uuidSuffix _.
Arguments parseFile {G} H env relayLogFile offset relayLogDir firstParse currentUUID possibleLast _.
Arguments withoutDecodeError {G} env.
Arguments withUUIDs {G} us st.

End Streamer.

(** ** Concrete helpers and inputs

    The theorems below hold for every GTID type, conversion, [TrimSpace] and
    [Helpers]; the definitions here instantiate them on concrete inputs. *)

Module Concrete.
Import Replication.

(** *** For the location recorder *)

(** GTID sets in their textual form. *)
Definition GTID : Type := string.

(** A conversion that accepts every set. *)
Definition convertAny (current given : GTID) : option GTID := Some given.

Definition isSpace (c : ascii) : bool :=
  let n := nat_of_ascii c in
  ((9 <=? n)%nat && (n <=? 13)%nat) || (n =? 32)%nat.

Fixpoint trimLeft (s : string) : string :=
  match s with
  | String c s' => if isSpace c then trimLeft s' else s
  | EmptyString => EmptyString
  end.

Fixpoint trimRight (s : string) : string :=
  match s with
  | EmptyString => EmptyString
  | String c s' =>
      match trimRight s' with
      | EmptyString => if isSpace c then EmptyString else String c EmptyString
      | t => String c t
      end
  end.

(** [strings.TrimSpace] on ASCII text. *)
Definition trimSpaceASCII (s : string) : string := trimRight (trimLeft s).

Definition locationAt (name : string) (pos : Z) : Syncer.Location GTID :=
  Syncer.mkLocation (mkPosition name pos) "" 0.

(** A recorder as [reset] leaves a new one. *)
Definition recorderAt (name : string) (pos : Z) : Syncer.locationRecorder GTID :=
  Syncer.mkRecorder (locationAt name pos) (locationAt name pos)
                    (locationAt name pos) false.

(** A query event as the upstream writes it. *)
Definition queryEvent (query : string) (logPos : Z) : BinlogEvent GTID :=
  mkEvent (mkHeader 1600000000 QUERY_EVENT 1 logPos 0) (QueryEvent query "g").

(** A query event flagged LOG_EVENT_ARTIFICIAL_F. *)
Definition artificialQueryEvent (query : string) (logPos : Z) : BinlogEvent GTID :=
  mkEvent (mkHeader 1600000000 QUERY_EVENT 1 logPos LOG_EVENT_ARTIFICIAL_F)
          (QueryEvent query "g").

Definition rotateEvent (next : string) (logPos : Z) : BinlogEvent GTID :=
  mkEvent (mkHeader 1600000000 ROTATE_EVENT 1 logPos 0) (RotateEvent 4 next).

Definition update := Syncer.update convertAny trimSpaceASCII.
Definition updates := Syncer.updates convertAny trimSpaceASCII.

(** *** For the reader *)

Import Streamer.

Fixpoint splitOn (sep : ascii) (s : string) : list string :=
  match s with
  | EmptyString => [EmptyString]
  | String c s' =>
      if Ascii.eqb c sep then EmptyString :: splitOn sep s'
      else match splitOn sep s' with
           | [] => [String c EmptyString]
           | p :: ps => String c p :: ps
           end
  end.

Definition isDigit (c : ascii) : bool :=
  let n := nat_of_ascii c in (48 <=? n)%nat && (n <=? 57)%nat.

Fixpoint allDigits (s : string) : bool :=
  match s with
  | EmptyString => true
  | String c s' => isDigit c && allDigits s'
  end.

Fixpoint decimalValue (acc : Z) (s : string) : Z :=
  match s with
  | EmptyString => acc
  | String c s' => decimalValue (10 * acc + Z.of_nat (nat_of_ascii c) - 48) s'
  end.

(** Modelled from the spec: [parseBinlogFile] is declared in another file of
    the package.  A relay file name has the form
    [<baseName>[|<epochSuffix>].<sequenceNumber>] with a decimal sequence
    number; the parsed form keeps the base name (with the epoch suffix, if
    any) and the sequence. *)
Definition specParseBinlogFile (name : string) : error + binlogFile :=
  match splitOn "." name with
  | [b; q] =>
      if negb (String.eqb q "") && allDigits q then inr (mkBinlogFile b q)
      else inl (ErrNew ("invalid binlog filename " ++ name))
  | _ => inl (ErrNew ("invalid binlog filename " ++ name))
  end.

(** Modelled from the spec: [constructBinlogFilename] is declared in another
    file of the package; it is the inverse of the parse. *)
Definition specConstructBinlogFilename (base sequence : string) : string :=
  base ++ baseSeqSeparator ++ sequence.

(** Modelled from the spec: [utils.ParseSuffixForUUID] is not among the
    sources.  An epoch is a relay sub-directory named by a UUID with a derived
    integer suffix; the source comment's example is
    [c6ae5afe-c7a3-11e8-a19d-0242ac130006.000002] with the suffix [000002]. *)
Definition specParseSuffixForUUID (uuid : string) : error + (string * Z) :=
  match splitOn "." uuid with
  | [b; q] =>
      if (String.length q =? 6)%nat && allDigits q then inr (b, decimalValue 0 q)
      else inl (ErrNotValid ("UUID (with suffix) " ++ uuid))
  | _ => inl (ErrNotValid ("UUID (with suffix) " ++ uuid))
  end.

(** Modelled from the spec: [utils.SuffixIntToStr] is not among the sources;
    the suffix is printed with six digits, as in the source comment's
    [000002]. *)
Definition specSuffixIntToStr (n : Z) : string :=
  let s := fmtInt n in
  String.concat "" (repeat "0" (6 - String.length s)) ++ s.

(** Modelled from the spec: [utils.GetUUIDBySuffix] is not among the
    sources; it finds the epoch of the index that has the given suffix, and
    returns the empty string when there is none. *)
Fixpoint specGetUUIDBySuffix (us : list string) (suffix : string) : string :=
  match us with
  | [] => ""
  | u :: rest =>
      if HasSuffix u ("." ++ suffix) then u else specGetUUIDBySuffix rest suffix
  end.

(** [path.Join] on clean path elements. *)
Definition joinPath (dir file : string) : string := dir ++ "/" ++ file.

Definition specHelpers : Helpers :=
  mkHelpers specParseBinlogFile specConstructBinlogFilename
            specParseSuffixForUUID specSuffixIntToStr specGetUUIDBySuffix
            "relay.meta" joinPath.

(** A relay directory with two epochs. *)
Definition twoEpochs : BinlogReader :=
  mkReader "relay" "relay/server-uuid.index" ["u1.000001"; "u2.000002"] 0.

(** A relay directory with one epoch. *)
Definition oneEpoch : BinlogReader :=
  mkReader "relay" "relay/server-uuid.index" ["u1.000001"] 0.


Definition emptyIndex : BinlogReader :=
  mkReader "relay" "relay/server-uuid.index" [] 0.

(** A file system in which every file has the given size and the second
    epoch's directory has the given entries. *)
Definition fsWith (size : Z) (u2files : list string) : FileSystem :=
  mkFileSystem
    (fun _ => inr size)
    (fun dir => if String.eqb dir "relay/u2.000002" then inr u2files
                else inr ["mysql-bin.000003"; "relay.meta"]).

(** A watcher that reports a change of the given path. *)
Definition watcherOf (path : string) : Watcher := mkWatcher None None path None.

(** A decoder that delivers the given events and ends with the given
    error. *)
Definition envOf (events : list (BinlogEvent GTID)) (derr : option error)
    (fs : FileSystem) : Env GTID :=
  mkEnv (fun _ _ => (events, derr)) fs
        (watcherOf "relay/u1.000001/mysql-bin.000004") fs.

Definition startState (r : BinlogReader) : State GTID := mkState r [].


(** The synthesized rotation event for [mysql-bin.000003] in the epoch
    [u1.000001], carrying the given offset. *)
Definition fakeRotate (offset : Z) : BinlogEvent GTID :=
  mkEvent (mkHeader 0 ROTATE_EVENT 0 0 LOG_EVENT_ARTIFICIAL_F)
          (RotateEvent offset "mysql-bin|000001.000003").

(** The last relay file of the first epoch. *)
Definition lastFile : string := "relay/u1.000001/mysql-bin.000003".

(** The second epoch's directory with its first relay file. *)
Definition u2Files : list string := ["relay.meta"; "mysql-bin.000001"].

(** Decoder errors: a premature end of the stream, and another one. *)
Definition eofError : error :=
  ErrExternal "get event header err EOF, need 19 but got 7".

Definition otherError : error := ErrExternal "invalid event type".

(** An event written by the relay writer, flagged LOG_EVENT_RELAY_LOG_F. *)
Definition relayWriterEvent : BinlogEvent GTID :=
  mkEvent (mkHeader 1600000000 QUERY_EVENT 7 500 LOG_EVENT_RELAY_LOG_F)
          (QueryEvent "x" "g").

End Concrete.

(** ** The location recorder: accessors and transaction boundaries *)

Module Boundaries.
Import Replication Syncer.

Section Recorder.

Variable GTIDSet : Type.
Variable TrimSpace : string -> string.

Definition getCurEndLocation (l : locationRecorder GTIDSet) : Location GTIDSet :=
  curEndLocation l.

Definition setCurEndLocation (l : locationRecorder GTIDSet) (location : Location GTIDSet)
    : locationRecorder GTIDSet :=
  mkRecorder (curStartLocation l) location (txnEndLocation l) (inDML l).

(** The header types that [shouldUpdatePos] skips. *)
Definition skippedTypes : list Z :=
  [FORMAT_DESCRIPTION_EVENT; HEARTBEAT_EVENT; IGNORABLE_EVENT;
   PREVIOUS_GTIDS_EVENT; MARIADB_GTID_LIST_EVENT].

(** The events that can move the transaction end while the DML flag is up,
    for a recorder whose end location is in the file [name]: a
    position-advancing XID event, [COMMIT] query event, or rotation event to
    another file. *)
Definition closesTransaction (name : string) (e : BinlogEvent GTIDSet) : bool :=
  shouldUpdatePos e
  && match Body e with
     | XIDEvent _ _ => true
     | QueryEvent q _ => String.eqb (TrimSpace q) "COMMIT"
     | RotateEvent _ next => negb (String.eqb name next)
     | _ => false
     end.

(** The file name of the transaction end. *)
Definition txnEndName (l : locationRecorder GTIDSet) : string :=
  Name (LPosition (txnEndLocation l)).

End Recorder.

Arguments getCurEndLocation {GTIDSet} l.
Arguments setCurEndLocation {GTIDSet} l location.
Arguments closesTransaction {GTIDSet} TrimSpace name e.
Arguments txnEndName {GTIDSet} l.

End Boundaries.

(** ** The loops of the reader and its entry points *)

Module Driver.
Import Replication Streamer.

(** [%v] of a [mysql.Position], which prints itself as [(name, pos)]. *)
Definition fmtPos (p : Position) : string :=
  "(" ++ Name p ++ ", " ++ fmtInt (Pos p) ++ ")".

(** Conversion of an [int64] to [uint32]. *)
Definition to_uint32 (z : Z) : Z := z mod 2 ^ 32.

(** The errors declared by the reader. *)
Definition ErrReaderRunning : error := ErrNew "binlog reader is already running".

Definition ErrBinlogFileNotSpecified : error := ErrNew "binlog file must be specified".

(** The message of the error of [parseRelay] when a directory is finished
    and no switch is asked for ([errors.NotSupportedf]). *)
Definition noNextSubDirMessage : string :=
  "parse for previous sub relay directory finished, "
    ++ "but no next sub directory need to switch" ++ " not supported".

Section Loops.

Variable G : Type.
Variable H : Helpers.

(** The events of the decoder that the callback sends on: those without
    the flag LOG_EVENT_RELAY_LOG_F. *)
Definition sentOn (e : BinlogEvent G) : bool :=
  Z.land (Flags (Header e)) LOG_EVENT_RELAY_LOG_F =? 0.

(** The event as the consumer receives it: a rotation event names the next
    file with the epoch's suffix, every other event is the decoded one. *)
Definition asReceived (uuidSuffix : string) (e : BinlogEvent G) : BinlogEvent G :=
  if EventType (Header e) =? FORMAT_DESCRIPTION_EVENT then e
  else if EventType (Header e) =? ROTATE_EVENT then
    match Body e with
    | RotateEvent p nextLogName =>
        match parseBinlogFile H nextLogName with
        | inr parsed =>
            mkEvent (Header e) (RotateEvent p (constructBinlogName parsed uuidSuffix))
        | inl _ => e
        end
    | _ => e
    end
  else e.

(** The synthesized rotation event of a first parse, as
    [GenFakeRotateEvent] makes it for the reader of the state. *)
Definition fakeRotateOf (relayLogFile : string) (offset : Z) (st : State G) : BinlogEvent G :=
  mkEvent (mkHeader 0 ROTATE_EVENT (latestServerID (reader st)) 0 LOG_EVENT_ARTIFICIAL_F)
          (RotateEvent (to_uint64 offset) relayLogFile).

(** The events the callback is run on in one call of [parseFile]: the
    synthesized rotation event on a first parse, then the decoder's. *)
Definition eventsOfParse (env : Env G) (relayLogFile : string) (offset : Z)
    (fullPath : string) (firstParse : bool) (st : State G) : list (BinlogEvent G) :=
  ((if firstParse then [fakeRotateOf relayLogFile offset st] else [])
   ++ fst (decode env fullPath offset))%list.

(** The surroundings of a run, step by step: each call of [parseFile] and
    each listing of a directory is one step.  [collectBinlogFiles] (declared
    in another file of the package) lists the relay files of a directory
    from a given file name on; what it returns is an observation of the
    file system at that step. *)
Record World : Type := mkWorld {
  envAt : nat -> Env G;
  collectBinlogFilesAt : nat -> string -> string -> error + list string
}.

(** The results of [parseFileAsPossible] other than the error. *)
Record FileOutcome : Type := mkFileOutcome {
  foNeedSwitch : bool;
  foLatestPos : Z;
  foNextUUID : string;
  foNextBinlogName : string
}.

(** [parseFileAsPossible]: the file is parsed again as long as [parseFile]
    asks for it.  [fuel] bounds the number of rounds; [None] is a run that
    is still going on after them.  The value comes with the next step of
    the world. *)
Fixpoint parseFileAsPossible (fuel : nat) (w : World) (t : nat)
    (relayLogFile : string) (latestPos : Z) (relayLogDir : string)
    (firstParse : bool) (currentUUID : string) (possibleLast : bool)
    : M G (option (FileOutcome * nat)) :=
  match fuel with
  | O => ret None
  | S fuel' =>
      fun st =>
        match parseFile H (envAt w t) relayLogFile latestPos relayLogDir firstParse
                        currentUUID possibleLast st with
        | (st', Err e) => (st', Err (ErrAnnotate e ("parse relay file " ++ relayLogFile)))
        | (st', Panic msg) => (st', Panic msg)
        | (st', Ok res) =>
            if needReParse res
            then parseFileAsPossible fuel' w (S t) relayLogFile (Streamer.latestPos res)
                                     relayLogDir false currentUUID possibleLast st'
            else (st', Ok (Some (mkFileOutcome (needSwitch res) (Streamer.latestPos res)
                                               (nextUUID res) (nextBinlogName res),
                                 S t)))
        end
  end.

(** How one pass over the listed files of a directory ends: with a switch,
    or with the last position and file name. *)
Inductive DirPass : Type :=
| PassSwitch (nextUUID nextBinlogName : string)
| PassDone (latestPos : Z) (latestName : string).

(** The loop of [parseDirAsPossible] over the listed files; [first] tells
    the first file of the listing ([i == 0]), [pos] is the position the
    listing was made for. *)
Fixpoint parseFiles (fuel : nat) (w : World) (t : nat) (dir currentUUID : string)
    (pos : Position) (files : list string) (first : bool) (firstParse : bool)
    (latestPos : Z) (latestName : string) : M G (option (DirPass * nat)) :=
  match files with
  | [] => ret (Some (PassDone latestPos latestName, t))
  | relayLogFile :: rest =>
      if first && negb (HasSuffix relayLogFile (Name pos))
      then fail (ErrNew ("the first relay log " ++ relayLogFile
                           ++ " not match the start pos " ++ fmtPos pos))
      else
        let offset := if first then Pos pos else 4 in
        let firstParse := if first then firstParse else true in
        let possibleLast := match rest with [] => true | _ => false end in
        fun st =>
          match parseFileAsPossible fuel w t relayLogFile offset dir firstParse
                                    currentUUID possibleLast st with
          | (st', Err e) => (st', Err (ErrAnnotate e ("parse relay dir " ++ dir)))
          | (st', Panic msg) => (st', Panic msg)
          | (st', Ok None) => (st', Ok None)
          | (st', Ok (Some (o, t'))) =>
              if foNeedSwitch o
              then (st', Ok (Some (PassSwitch (foNextUUID o) (foNextBinlogName o), t')))
              else parseFiles fuel w t' dir currentUUID pos rest false false
                              (foLatestPos o) relayLogFile st'
          end
  end.

(** The results of [parseDirAsPossible] other than the error. *)
Record DirOutcome : Type := mkDirOutcome {
  doNeedSwitch : bool;
  doNextUUID : string;
  doNextBinlogName : string
}.

(** The outer loop of [parseDirAsPossible]: list the files from the
    position on, parse them, and start again from the last file. *)
Fixpoint parseDirLoop (fuel : nat) (w : World) (t : nat) (dir currentUUID : string)
    (pos : Position) (firstParse : bool) : M G (option (DirOutcome * nat)) :=
  match fuel with
  | O => ret None
  | S fuel' =>
      match collectBinlogFilesAt w t dir (Name pos) with
      | inl e => fail (ErrAnnotate e ("parse relay dir " ++ dir))
      | inr files =>
          if Z.of_nat (List.length files) =? 0
          then fail (ErrNew ("no relay log files match pos " ++ fmtPos pos))
          else
            r <- parseFiles (S fuel') w (S t) dir currentUUID pos files true firstParse 0 "" ;;
            match r with
            | None => ret None
            | Some (PassSwitch u n, t') => ret (Some (mkDirOutcome true u n, t'))
            | Some (PassDone lp ln, t') =>
                parseDirLoop fuel' w t' dir currentUUID
                             (mkPosition ln (to_uint32 lp)) false
            end
      end
  end.

Definition parseDirAsPossible (fuel : nat) (w : World) (t : nat) (pos : Position)
    : M G (option (DirOutcome * nat)) :=
  r <- getReader ;;
  match extractPos H r pos with
  | Err e => fail (ErrAnnotate e ("parse relay dir with pos " ++ fmtPos pos))
  | Panic msg => panic msg
  | Ok (currentUUID, _, realPos) =>
      parseDirLoop fuel w t (Join H (RelayDir r) currentUUID) currentUUID realPos true
  end.

(** The position [parseRelay] goes on from after a switch: the first file
    of the next epoch, named with the epoch's suffix, at offset 4. *)
Definition switchPosition (nextUUID nextBinlogName : string) : Result Position :=
  match ParseSuffixForUUID H nextUUID with
  | inl e2 => Err (ErrAnnotate e2 ("parse suffix for UUID " ++ nextUUID))
  | inr (_, suffixInt) =>
      let uuidSuffix := SuffixIntToStr H suffixInt in
      match parseBinlogFile H nextBinlogName with
      | inl e2 => Err (ErrAnnotate e2 ("parse binlog file name " ++ nextBinlogName))
      | inr parsed => Ok (mkPosition (constructBinlogName parsed uuidSuffix) 4)
      end
  end.

(** [parseRelay]: the loop over the epochs.  It returns an error only;
    [Ok None] is a run that is still going on after [fuel] rounds. *)
Fixpoint parseRelay (fuel : nat) (w : World) (t : nat) (pos : Position)
    : M G (option unit) :=
  match fuel with
  | O => ret None
  | S fuel' =>
      fun st =>
        match parseDirAsPossible (S fuel') w t pos st with
        | (st', Err e) => (st', Err (ErrTrace e))
        | (st', Panic msg) => (st', Panic msg)
        | (st', Ok None) => (st', Ok None)
        | (st', Ok (Some (o, t'))) =>
            if negb (doNeedSwitch o) then (st', Err (ErrNew noNextSubDirMessage))
            else
              match switchPosition (doNextUUID o) (doNextBinlogName o) with
              | Err e => (st', Err e)
              | Panic msg => (st', Panic msg)
              | Ok pos' => parseRelay fuel' w t' pos' st'
              end
        end
  end.

End Loops.

Arguments sentOn {G} e.
Arguments fakeRotateOf {G} relayLogFile offset st.
Arguments eventsOfParse {G} env relayLogFile offset fullPath firstParse st.
Arguments asReceived {G} H uuidSuffix e.
Arguments mkWorld {G} envAt collectBinlogFilesAt.
Arguments envAt {G} _ _.
Arguments collectBinlogFilesAt {G} _ _ _ _.
Arguments parseFileAsPossible {G} H fuel w t relayLogFile latestPos relayLogDir
  firstParse currentUUID possibleLast _.
Arguments parseFiles {G} H fuel w t dir currentUUID pos files first firstParse
  latestPos latestName _.
Arguments parseDirLoop {G} H fuel w t dir currentUUID pos firstParse _.
Arguments parseDirAsPossible {G} H fuel w t pos _.
Arguments parseRelay {G} H fuel w t pos _.

(** *** Start and close *)

(** The reader with its running flag and the state of its context, which
    [Close] cancels. *)
Record Handle : Type := mkHandle {
  hReader : BinlogReader;
  running : bool;
  cancelled : bool
}.

(** [updateUUIDs]; [parseUUIDIndex] is [utils.ParseUUIDIndex], which reads
    the index file. *)
Definition updateUUIDs (parseUUIDIndex : string -> error + list string)
    (r : BinlogReader) : Result BinlogReader :=
  match parseUUIDIndex (indexPath r) with
  | inl e => Err (ErrTrace e)
  | inr us => Ok (mkReader (RelayDir r) (indexPath r) us (latestServerID r))
  end.

(** [StartSync], up to the start of the worker that runs [parseRelay]; the
    value [tt] stands for the new streamer. *)
Definition StartSync (parseUUIDIndex : string -> error + list string)
    (h : Handle) (pos : Position) : Handle * Result unit :=
  if String.eqb (Name pos) "" then (h, Err ErrBinlogFileNotSpecified)
  else if running h then (h, Err ErrReaderRunning)
  else
    match updateUUIDs parseUUIDIndex (hReader h) with
    | Err e => (h, Err (ErrTrace e))
    | Panic msg => (h, Panic msg)
    | Ok r => (mkHandle (set_latestServerID r 0) true (cancelled h), Ok tt)
    end.

(** [Close]: the reader is not running any more and its context is
    cancelled. *)
Definition Close (h : Handle) : Handle := mkHandle (hReader h) false true.

End Driver.

(** ** Concrete runs *)

Module Runs.
Import Replication Streamer Driver Concrete.

(** *** Events *)

Definition xidEvent (logPos : Z) : BinlogEvent GTID :=
  mkEvent (mkHeader 1600000000 XID_EVENT 1 logPos 0) (XIDEvent 77 "g2").

Definition heartbeatEvent : BinlogEvent GTID :=
  mkEvent (mkHeader 0 HEARTBEAT_EVENT 1 0 0) GenericEvent.

(** A rows event (WRITE_ROWS_EVENTv2). *)
Definition rowsEvent (logPos : Z) : BinlogEvent GTID :=
  mkEvent (mkHeader 1600000000 30 1 logPos 0) GenericEvent.

Definition mariadbGTIDEvent (flags : Z) (logPos : Z) : BinlogEvent GTID :=
  mkEvent (mkHeader 1600000000 MARIADB_GTID_EVENT 1 logPos 0) (MariadbGTIDEvent flags).

(** A recorder inside a statement-mode transaction. *)
Definition recorderInDML (name : string) (pos : Z) : Syncer.locationRecorder GTID :=
  Syncer.mkRecorder (locationAt name pos) (locationAt name pos) (locationAt name pos) true.

(** The events of a transaction before its end. *)
Definition statements : list (BinlogEvent GTID) :=
  [queryEvent "INSERT INTO t VALUES (1)" 300; rowsEvent 380;
   rotateEvent "mysql-bin.000001" 0; queryEvent "UPDATE t SET a = 2" 480].

(** *** Directories *)

Definition threeEpochs : BinlogReader :=
  mkReader "relay" "relay/server-uuid.index" ["u1.000001"; "u2.000002"; "u3.000003"] 0.

(** A file system in which the second epoch's directory has the given
    entries and no other directory can be read. *)
Definition fsOnly (u2files : list string) : FileSystem :=
  mkFileSystem
    (fun _ => inr 4)
    (fun dir => if String.eqb dir "relay/u2.000002" then inr u2files
                else inl (ErrExternal "no such file or directory")).

(** *** Stream *)



(** *** Worlds *)


(** The first epoch is finished and the second one has its first file;
    every directory lists the given files. *)
Definition finishedWorld (listing : list string) : World GTID :=
  mkWorld
    (fun _ => envOf [queryEvent "x" 1300] None (fsWith 1300 u2Files))
    (fun _ _ _ => inr listing).


(** *** Start *)

Definition idle : Handle := mkHandle emptyIndex false false.

Definition indexOnDisk (path : string) : error + list string :=
  inr ["u1.000001"; "u2.000002"].

Definition noIndex (path : string) : error + list string :=
  inl (ErrExternal "open relay/server-uuid.index: no such file or directory").

End Runs.

(** * Properties *)

(** ** The location recorder *)

Section RecorderProperties.
Import Replication Syncer.

Variable GTIDSet : Type.
Variable convertGTID : GTIDSet -> GTIDSet -> option GTIDSet.
Variable TrimSpace : string -> string.

Lemma setCurrentGTID_position (l : locationRecorder GTIDSet) (g : GTIDSet) :
  LPosition (curEndLocation (setCurrentGTID convertGTID l g))
  = LPosition (curEndLocation l).
Proof.
  unfold setCurrentGTID, SetGTID.
  destruct (convertGTID _ g); reflexivity.
Qed.
Lemma update_end_cases (l : locationRecorder GTIDSet) (e : BinlogEvent GTIDSet) :
  (LPosition (curEndLocation (update convertGTID TrimSpace l e))
   = LPosition (curEndLocation l))
  \/ (shouldUpdatePos e = true
      /\ isRotate e = false
      /\ LPosition (curEndLocation (update convertGTID TrimSpace l e))
         = mkPosition (endName l) (LogPos (Header e)))
  \/ (shouldUpdatePos e = true
      /\ (exists p next, Body e = RotateEvent p next
            /\ next <> endName l
            /\ LPosition (curEndLocation (update convertGTID TrimSpace l e))
               = mkPosition next FileHeaderLen)).
Proof.
  unfold update.
  destruct (shouldUpdatePos e) eqn:Hs; cbn [negb]; [ | left; reflexivity ].
  destruct e as [h body]; cbn [Body Header] in *.
  destruct body as [p next | x g | q g | f | ].
  - change (endName (mkRecorder (curEndLocation l) (curEndLocation l) (txnEndLocation l) (inDML l)))
      with (endName l).
    destruct (String.eqb (endName l) next) eqn:E; cbn [negb].
    + left; reflexivity.
    + right; right. split; [ reflexivity | ].
      exists p, next. apply String.eqb_neq in E.
      repeat split; try reflexivity. congruence.
  - right; left. repeat split.
    cbn. rewrite setCurrentGTID_position. reflexivity.
  - right; left. repeat split; try reflexivity.
    destruct (String.eqb (TrimSpace q) "BEGIN");
      [ | destruct (String.eqb (TrimSpace q) "COMMIT") ]; cbn.
    + reflexivity.
    + rewrite setCurrentGTID_position. reflexivity.
    + destruct (inDML l); cbn; [ reflexivity | ].
      rewrite setCurrentGTID_position. reflexivity.
  - right; left. repeat split; try reflexivity.
    destruct (IsDDL f); reflexivity.
  - right; left. repeat split; reflexivity.
Qed.

(** C1, as amended.  Across one update, after any sequence of earlier
    events: when the end file name changes, the event is a
    position-advancing rotation event naming the new file and the end offset
    is the file-header length; when the name stays, the end offset is either
    unchanged or the event's log position, so it does not decrease whenever
    the event's log position is not below the current offset. *)
Theorem update_end_offset (l : locationRecorder GTIDSet)
    (es : list (BinlogEvent GTIDSet)) (e : BinlogEvent GTIDSet) :
  let s := updates convertGTID TrimSpace l es in
  let s' := update convertGTID TrimSpace s e in
  (endName s' <> endName s ->
     shouldUpdatePos e = true
     /\ (exists p, Body e = RotateEvent p (endName s'))
     /\ endPos s' = FileHeaderLen)
  /\ (endName s' = endName s ->
        (endPos s' = endPos s \/ endPos s' = LogPos (Header e))
        /\ (endPos s <= LogPos (Header e) -> endPos s <= endPos s')).
Proof.
  intros s s'. subst s'.
  unfold endName, endPos.
  destruct (update_end_cases s e) as [E | [(Hs & Hr & E) | (Hs & p & next & Hb & Hn & E)]];
    rewrite E; cbn [Name Pos]; split; intros Hname.
  - congruence.
  - split; [ left; reflexivity | lia ].
  - unfold endName in Hname. congruence.
  - split; [ right; reflexivity | lia ].
  - repeat split; [ assumption | exists p; assumption ].
  - unfold endName in Hn. congruence.
Qed.
Lemma setCurrentGTID_txnEnd (l : locationRecorder GTIDSet) (g : GTIDSet) :
  txnEndLocation (setCurrentGTID convertGTID l g) = txnEndLocation l.
Proof.
  unfold setCurrentGTID, SetGTID.
  destruct (convertGTID _ g); reflexivity.
Qed.

Lemma setCurrentGTID_inDML (l : locationRecorder GTIDSet) (g : GTIDSet) :
  inDML (setCurrentGTID convertGTID l g) = inDML l.
Proof.
  unfold setCurrentGTID, SetGTID.
  destruct (convertGTID _ g); reflexivity.
Qed.

(** A [BEGIN] that advances the position raises the DML flag and leaves
    the transaction end. *)
Lemma update_begin (l : locationRecorder GTIDSet) (b : BinlogEvent GTIDSet) :
  queryText TrimSpace b = Some "BEGIN" ->
  shouldUpdatePos b = true ->
  inDML (update convertGTID TrimSpace l b) = true
  /\ txnEndLocation (update convertGTID TrimSpace l b) = txnEndLocation l.
Proof.
  unfold queryText, update. intros Hq Hs. rewrite Hs. cbn [negb].
  destruct (Body b) as [p next | x g | q g | f | ]; try discriminate.
  injection Hq as Hq. rewrite Hq. cbn. split; reflexivity.
Qed.

(** Inside a statement-mode transaction a query event other than [COMMIT]
    keeps the flag and the transaction end. *)
Lemma update_in_dml (l : locationRecorder GTIDSet) (e : BinlogEvent GTIDSet) :
  inDML l = true ->
  notCommitQuery TrimSpace e = true ->
  inDML (update convertGTID TrimSpace l e) = true
  /\ txnEndLocation (update convertGTID TrimSpace l e) = txnEndLocation l.
Proof.
  unfold notCommitQuery, queryText, update. intros Hd Hq.
  destruct (shouldUpdatePos e); cbn [negb]; [ | split; [ exact Hd | reflexivity ] ].
  destruct (Body e) as [p next | x g | q g | f | ]; try discriminate.
  apply negb_true_iff in Hq. rewrite Hq.
  destruct (String.eqb (TrimSpace q) "BEGIN"); cbn; [ split; reflexivity | ].
  rewrite Hd. cbn. split; reflexivity.
Qed.

Lemma Forall_prefix {A : Type} (P : A -> Prop) (k : nat) :
  forall l : list A, Forall P l -> Forall P (firstn k l).
Proof.
  induction k as [ | k IH]; intros l Hl; cbn.
  - constructor.
  - destruct l as [ | x l]; [ constructor | ].
    inversion Hl; subst. constructor; [ assumption | apply IH; assumption ].
Qed.

Lemma updates_in_dml (ms : list (BinlogEvent GTIDSet)) :
  forall l : locationRecorder GTIDSet,
  inDML l = true ->
  Forall (fun e => notCommitQuery TrimSpace e = true) ms ->
  inDML (updates convertGTID TrimSpace l ms) = true
  /\ txnEndLocation (updates convertGTID TrimSpace l ms) = txnEndLocation l.
Proof.
  induction ms as [ | e ms IH]; intros l Hd Hall.
  - split; [ exact Hd | reflexivity ].
  - inversion Hall as [ | e' ms' He Hms]; subst.
    destruct (update_in_dml l e Hd He) as [Hd' Ht'].
    destruct (IH _ Hd' Hms) as [Hd'' Ht''].
    unfold updates in *. cbn [fold_left]. split; congruence.
Qed.

(** A [COMMIT] that advances the position saves the end location as the
    transaction end. *)
Lemma update_commit (l : locationRecorder GTIDSet) (c : BinlogEvent GTIDSet) :
  queryText TrimSpace c = Some "COMMIT" ->
  shouldUpdatePos c = true ->
  txnEndLocation (update convertGTID TrimSpace l c)
  = Clone (curEndLocation (update convertGTID TrimSpace l c))
  /\ inDML (update convertGTID TrimSpace l c) = false.
Proof.
  unfold queryText, update. intros Hq Hs. rewrite Hs. cbn [negb].
  destruct (Body c) as [p next | x g | q g | f | ]; try discriminate.
  injection Hq as Hq. rewrite Hq. cbn. split; [ reflexivity | ].
  apply setCurrentGTID_inDML.
Qed.

(** C2, as amended.  For a position-advancing query event [BEGIN], then
    query events whose trimmed text is not [COMMIT], then a
    position-advancing query event [COMMIT]: the transaction end is the
    initial one after [BEGIN] and after every prefix of the events in
    between, and after the [COMMIT] it is the clone of the end location. *)
Theorem begin_commit_txn_end (l : locationRecorder GTIDSet)
    (b : BinlogEvent GTIDSet) (mids : list (BinlogEvent GTIDSet))
    (c : BinlogEvent GTIDSet) :
  queryText TrimSpace b = Some "BEGIN" ->
  shouldUpdatePos b = true ->
  Forall (fun e => notCommitQuery TrimSpace e = true) mids ->
  queryText TrimSpace c = Some "COMMIT" ->
  shouldUpdatePos c = true ->
  (forall k : nat,
     txnEndLocation (updates convertGTID TrimSpace l (b :: firstn k mids))
     = txnEndLocation l)
  /\ txnEndLocation (updates convertGTID TrimSpace l (b :: mids ++ [c]))
     = Clone (curEndLocation (updates convertGTID TrimSpace l (b :: mids ++ [c]))).
Proof.
  intros Hb Hsb Hmids Hc Hsc.
  destruct (update_begin l b Hb Hsb) as [Hd Ht].
  split.
  - intros k.
    assert (Hk : Forall (fun e => notCommitQuery TrimSpace e = true) (firstn k mids)).
    { apply Forall_prefix. exact Hmids. }
    destruct (updates_in_dml (firstn k mids) _ Hd Hk) as [_ Hk'].
    unfold updates in *. cbn [fold_left]. congruence.
  - unfold updates. cbn [fold_left]. rewrite fold_left_app. cbn [fold_left].
    apply update_commit; assumption.
Qed.
(** C8.  [reset loc] sets the start, end and transaction-end locations to
    [loc] and keeps the DML flag. *)
Theorem reset_locations_keep_inDML (l : locationRecorder GTIDSet) (loc : Location GTIDSet) :
  curStartLocation (reset l loc) = loc
  /\ curEndLocation (reset l loc) = loc
  /\ txnEndLocation (reset l loc) = loc
  /\ inDML (reset l loc) = inDML l.
Proof.
  unfold reset. cbn [curStartLocation curEndLocation txnEndLocation inDML].
  repeat split.
Qed.

End RecorderProperties.

(** ** The reader *)

Section ReaderProperties.
Import Replication Streamer.

Variable G : Type.
Variable H : Helpers.

(** *** The size check *)

Lemma fileSizeUpdated_stat (fs : FileSystem) (path : string)
    (latestSize currSize : Z) :
  Stat fs path = inr currSize ->
  fileSizeUpdated fs path latestSize
  = if currSize =? latestSize then Ok 0
    else if currSize >? latestSize then Ok 1
    else Panic ("relay log file size has changed from " ++ fmtInt latestSize
                  ++ " to " ++ fmtInt currSize).
Proof. intros Hstat. unfold fileSizeUpdated. rewrite Hstat. reflexivity. Qed.

(** C7.  For a file whose size is read: [fileSizeUpdated] returns 0 when
    the size equals the last-known size and 1 when it is larger; when it is
    smaller the call panics, so no value is returned. *)
Theorem fileSizeUpdated_three_way (fs : FileSystem) (path : string)
    (latestSize currSize : Z) :
  Stat fs path = inr currSize ->
  (currSize = latestSize -> fileSizeUpdated fs path latestSize = Ok 0)
  /\ (currSize > latestSize -> fileSizeUpdated fs path latestSize = Ok 1)
  /\ (currSize < latestSize ->
        exists msg, fileSizeUpdated fs path latestSize = Panic msg).
Proof.
  intros Hstat. rewrite (fileSizeUpdated_stat fs path latestSize currSize Hstat).
  destruct (Z.eqb_spec currSize latestSize) as [E | E];
    destruct (Z.gtb_spec currSize latestSize) as [L | L];
    repeat split; intros Hc; try lia; try reflexivity.
  eexists; reflexivity.
Qed.

(** *** The callback *)

(** C9.  An event whose header flags have bit 0x0040 set leaves the
    callback with a nil error and with the sent events, the reader (its
    latest server id) and the latest position as they were. *)
Theorem onEventFunc_skips_relay_writer_event (uuidSuffix : string)
    (latestPos : Z) (e : BinlogEvent G) (st : State G) :
  Z.land (Flags (Header e)) LOG_EVENT_RELAY_LOG_F <> 0 ->
  onEventFunc H uuidSuffix latestPos e st = (st, Ok latestPos).
Proof.
  intros Hflag. unfold onEventFunc.
  change 64 with LOG_EVENT_RELAY_LOG_F.
  destruct (Z.eqb_spec (Z.land (Flags (Header e)) LOG_EVENT_RELAY_LOG_F) 0) as [E | E];
    [ contradiction | reflexivity ].
Qed.

(** *** The next epoch *)

Lemma scanNextUUID_none (us : list string) (uuid : string) (n : nat) :
  (forall i, (i < n)%nat -> nth i us "" <> uuid) ->
  scanNextUUID us uuid n = None.
Proof.
  induction n as [ | n IH]; intros Hno; cbn; [ reflexivity | ].
  destruct (String.eqb_spec (nth n us "") uuid) as [E | E].
  - exfalso. apply (Hno n); [ lia | exact E ].
  - apply IH. intros i Hi. apply Hno. lia.
Qed.

Lemma scanNextUUID_last (us : list string) (uuid : string) (i : nat) (n : nat) :
  (i < n)%nat ->
  nth i us "" = uuid ->
  (forall j, (i < j < n)%nat -> nth j us "" <> uuid) ->
  scanNextUUID us uuid n = Some (nth (S i) us "").
Proof.
  induction n as [ | n IH]; intros Hi Hat Hlast; [ lia | ].
  cbn. destruct (String.eqb_spec (nth n us "") uuid) as [E | E].
  - destruct (Nat.eq_dec i n) as [-> | Hne]; [ reflexivity | ].
    exfalso. apply (Hlast n); [ lia | exact E ].
  - destruct (Nat.eq_dec i n) as [-> | Hne]; [ contradiction | ].
    apply IH; [ lia | exact Hat | ]. intros j Hj. apply Hlast. lia.
Qed.

Lemma nth_error_nth_default (us : list string) (i : nat) (u : string) :
  nth_error us i = Some u -> nth i us "" = u.
Proof. intros E. apply nth_error_nth. exact E. Qed.




Ltac run := unfold bind, recordServerID, send, ret, panic, fail, getReader.

Lemma onEventFunc_reframe (us : list string) (s0 : list (BinlogEvent G))
    (uuidSuffix : string) (p : Z) (e : BinlogEvent G) (st : State G) :
  onEventFunc H uuidSuffix p e (reframe us s0 st)
  = (reframe us s0 (fst (onEventFunc H uuidSuffix p e st)),
     snd (onEventFunc H uuidSuffix p e st)).
Proof.
  unfold onEventFunc.
  destruct (negb (Z.land (Flags (Header e)) 64 =? 0)); [ reflexivity | ].
  run.
  destruct (EventType (Header e) =? FORMAT_DESCRIPTION_EVENT).
  { unfold reframe; cbn. rewrite app_assoc. reflexivity. }
  destruct (EventType (Header e) =? ROTATE_EVENT).
  - destruct (Body e) as [q next | x g | q g | f | ]; try reflexivity.
    destruct (parseBinlogFile H next); [ reflexivity | ].
    unfold reframe; cbn. rewrite app_assoc. reflexivity.
  - unfold reframe; cbn. rewrite app_assoc. reflexivity.
Qed.

Lemma deliver_reframe (us : list string) (s0 : list (BinlogEvent G))
    (uuidSuffix : string) (es : list (BinlogEvent G)) :
  forall (p : Z) (st : State G),
  deliver H uuidSuffix p es (reframe us s0 st)
  = (reframe us s0 (fst (deliver H uuidSuffix p es st)),
     snd (deliver H uuidSuffix p es st)).
Proof.
  induction es as [ | e es IH]; intros p st; cbn [deliver].
  - reflexivity.
  - unfold bind. rewrite onEventFunc_reframe.
    destruct (onEventFunc H uuidSuffix p e st) as [st1 [p1 | err | msg]]; cbn [fst snd];
      try reflexivity.
    apply IH.
Qed.

Lemma parseEvents_reframe (us : list string) (s0 : list (BinlogEvent G))
    (env : Env G) (relayLogFile : string) (offset : Z) (fullPath : string)
    (firstParse : bool) (uuidSuffix : string) (st : State G) :
  parseEvents H env relayLogFile offset fullPath firstParse uuidSuffix (reframe us s0 st)
  = (reframe us s0 (fst (parseEvents H env relayLogFile offset fullPath firstParse uuidSuffix st)),
     snd (parseEvents H env relayLogFile offset fullPath firstParse uuidSuffix st)).
Proof.
  unfold parseEvents. destruct firstParse.
  - unfold bind at 1 3 5. unfold bind at 1 2 3. unfold getReader.
    cbn [GenFakeRotateEvent reframe reader latestServerID].
    change (mkState _ (s0 ++ sent st)) with (reframe us s0 st).
    rewrite onEventFunc_reframe.
    destruct (onEventFunc H uuidSuffix offset _ st) as [st1 [p1 | err | msg]]; cbn [fst snd];
      try reflexivity.
    apply deliver_reframe.
  - unfold bind, ret. apply deliver_reframe.
Qed.

Lemma afterDecode_state (env : Env G) (relayLogFile relayLogDir fullPath currentUUID : string)
    (possibleLast : bool) (p : Z) (st : State G) :
  fst (afterDecode H env relayLogFile relayLogDir fullPath currentUUID possibleLast p st) = st.
Proof.
  unfold afterDecode. destruct possibleLast; cbn [negb]; [ | reflexivity ].
  run.
  destruct (needSwitchSubDir H _ _ _ _ _) as [d | e | msg]; try reflexivity.
  destruct (sdNeedReParse d); [ reflexivity | ].
  destruct (sdNeedSwitch d); [ reflexivity | ].
  destruct (relaySubDirUpdated _ _ _ _ _) as [u | e | msg]; try reflexivity.
  destruct (HasSuffix u relayLogFile); reflexivity.
Qed.

(** [parseFile] sends what [parseEvents] sends. *)
Lemma parseFile_state (env : Env G) (relayLogFile : string) (offset : Z)
    (relayLogDir : string) (firstParse : bool) (currentUUID : string)
    (possibleLast : bool) (st : State G) (b : string) (n : Z) :
  ParseSuffixForUUID H currentUUID = inr (b, n) ->
  fst (parseFile H env relayLogFile offset relayLogDir firstParse currentUUID possibleLast st)
  = fst (parseEvents H env relayLogFile offset (Join H relayLogDir relayLogFile)
                     firstParse (SuffixIntToStr H n) st).
Proof.
  intros Hs. unfold parseFile. rewrite Hs. unfold bind at 1.
  destruct (parseEvents H env _ _ _ _ _ st) as [st1 [p1 | err | msg]]; cbn [fst];
    try reflexivity.
  destruct (softEOF possibleLast _); [ apply afterDecode_state | ].
  destruct (snd (decode env _ offset)); [ reflexivity | apply afterDecode_state ].
Qed.




Lemma parseEvents_withoutDecodeError (env : Env G) (relayLogFile : string) (offset : Z)
    (fullPath : string) (firstParse : bool) (uuidSuffix : string) :
  parseEvents H (withoutDecodeError env) relayLogFile offset fullPath firstParse uuidSuffix
  = parseEvents H env relayLogFile offset fullPath firstParse uuidSuffix.
Proof. reflexivity. Qed.

(** C6, as amended.  When the decoder ends with an error: on a possibly
    last file with [err EOF] in the message, [parseFile] goes on exactly as
    after a decode of the same events without an error; in every other
    case, once the decoder has returned, [parseFile] returns the decoder's
    error traced, whose message is the decoder's own. *)
Theorem parseFile_decoder_error (env : Env G) (relayLogFile : string) (offset : Z)
    (relayLogDir : string) (firstParse : bool) (currentUUID : string)
    (possibleLast : bool) (st : State G) (e : error) :
  snd (decode env (Join H relayLogDir relayLogFile) offset) = Some e ->
  (possibleLast = true ->
   Contains (Error e) "err EOF" = true ->
   parseFile H env relayLogFile offset relayLogDir firstParse currentUUID possibleLast st
   = parseFile H (withoutDecodeError env) relayLogFile offset relayLogDir firstParse
               currentUUID possibleLast st)
  /\ (possibleLast = false \/ Contains (Error e) "err EOF" = false ->
      forall (b : string) (n : Z) (st' : State G) (p : Z),
        ParseSuffixForUUID H currentUUID = inr (b, n) ->
        parseEvents H env relayLogFile offset (Join H relayLogDir relayLogFile)
                    firstParse (SuffixIntToStr H n) st = (st', Ok p) ->
        parseFile H env relayLogFile offset relayLogDir firstParse currentUUID possibleLast st
        = (st', Err (ErrTrace e))
        /\ Error (ErrTrace e) = Error e).
Proof.
  intros Hd. split.
  - intros Hl Heof. unfold parseFile.
    destruct (ParseSuffixForUUID H currentUUID) as [e0 | [b n]]; [ reflexivity | ].
    cbv zeta. rewrite parseEvents_withoutDecodeError.
    unfold bind.
    destruct (parseEvents H env _ _ _ _ _ st) as [st1 [p1 | err | msg]]; try reflexivity.
    rewrite Hd. unfold softEOF. rewrite Hl, Heof. cbn.
    unfold afterDecode. reflexivity.
  - intros Hother b n st' p Hs Hev. unfold parseFile. rewrite Hs.
    cbv zeta. unfold bind. rewrite Hev, Hd.
    assert (Hsoft : softEOF possibleLast (Some e) = false).
    { unfold softEOF. destruct Hother as [-> | ->]; [ reflexivity | apply andb_false_r ]. }
    rewrite Hsoft. split; reflexivity.
Qed.

(** C10.  When [parseFile] returns without an error, needSwitch and
    needReParse are not both true and needSwitch is true only for a possibly
    last file; for a file that is not the last both are false, and the
    result is the same for every file system, watcher and UUID index. *)
Theorem parseFile_switch_reparse (env : Env G) (relayLogFile : string) (offset : Z)
    (relayLogDir : string) (firstParse : bool) (currentUUID : string)
    (possibleLast : bool) (st st' : State G) (res : ParseResult) :
  parseFile H env relayLogFile offset relayLogDir firstParse currentUUID possibleLast st
  = (st', Ok res) ->
  needSwitch res && needReParse res = false
  /\ (needSwitch res = true -> possibleLast = true)
  /\ (possibleLast = false ->
      needSwitch res = false
      /\ needReParse res = false
      /\ forall (env' : Env G) (us : list string),
           decode env' = decode env ->
           snd (parseFile H env' relayLogFile offset relayLogDir firstParse currentUUID
                          possibleLast (withUUIDs us st))
           = Ok res).
Proof.
  intros Hrun.
  assert (Hshape : possibleLast = false /\ needSwitch res = false /\ needReParse res = false
                   \/ possibleLast = true /\ needSwitch res && needReParse res = false).
  { revert Hrun. unfold parseFile.
    destruct (ParseSuffixForUUID H currentUUID) as [e0 | [b n]]; [ discriminate | ].
    cbv zeta. unfold bind at 1.
    destruct (parseEvents H env _ _ _ _ _ st) as [st1 [p1 | err | msg]]; try discriminate.
    assert (Hafter : afterDecode H env relayLogFile relayLogDir
                       (Join H relayLogDir relayLogFile) currentUUID possibleLast p1 st1
                     = (st', Ok res) ->
                     possibleLast = false /\ needSwitch res = false /\ needReParse res = false
                     \/ possibleLast = true /\ needSwitch res && needReParse res = false).
    { unfold afterDecode. destruct possibleLast; cbn [negb].
      - run.
        destruct (needSwitchSubDir H _ _ _ _ _) as [d | e | msg]; try discriminate.
        destruct (sdNeedReParse d);
          [ intros E; injection E as _ <-; right; split; reflexivity | ].
        destruct (sdNeedSwitch d);
          [ intros E; injection E as _ <-; right; split; reflexivity | ].
        destruct (relaySubDirUpdated _ _ _ _ _) as [u | e | msg]; try discriminate.
        destruct (HasSuffix u relayLogFile);
          intros E; injection E as _ <-; right; split; reflexivity.
      - run. intros E; injection E as _ <-. left. repeat split. }
    destruct (softEOF possibleLast _); [ exact Hafter | ].
    destruct (snd (decode env _ offset)); [ discriminate | exact Hafter ]. }
  repeat split.
  - destruct Hshape as [(_ & -> & _) | (_ & E)]; [ reflexivity | exact E ].
  - intros Hsw. destruct Hshape as [(_ & E & _) | (E & _)]; congruence.
  - destruct Hshape as [(_ & E & _) | (E & _)]; congruence.
  - destruct Hshape as [(_ & _ & E) | (E & _)]; congruence.
  - intros env' us Hdec. subst possibleLast.
    revert Hrun. unfold parseFile.
    destruct (ParseSuffixForUUID H currentUUID) as [e0 | [b n]]; [ discriminate | ].
    cbv zeta. unfold bind.
    change (withUUIDs us st) with (reframe us [] st).
    assert (Hev : parseEvents H env' relayLogFile offset (Join H relayLogDir relayLogFile)
                    firstParse (SuffixIntToStr H n)
                  = parseEvents H env relayLogFile offset (Join H relayLogDir relayLogFile)
                    firstParse (SuffixIntToStr H n)).
    { unfold parseEvents. rewrite Hdec. reflexivity. }
    rewrite Hev, parseEvents_reframe, Hdec.
    destruct (parseEvents H env _ _ _ _ _ st) as [st1 [p1 | err | msg]]; cbn [fst snd];
      try discriminate.
    unfold softEOF.
    destruct (snd (decode env _ offset)) as [e | ]; cbn [andb]; [ discriminate | ].
    unfold afterDecode. cbn [negb]. run.
    intros E; injection E as _ <-. reflexivity.
Qed.
End ReaderProperties.

(** ** The properties on concrete inputs *)

Section OnConcreteInputs.
Import Replication Concrete.

(** *** The location recorder *)

(** The end offset after a rotation to another file, and across a query
    event further on in the same file. *)
Lemma update_end_offset_witness :
  (let s := updates (recorderAt "mysql-bin.000001" 4) [queryEvent "BEGIN" 120] in
   Syncer.endPos (update s (rotateEvent "mysql-bin.000002" 500)) = 4)
  /\ (let s := updates (recorderAt "mysql-bin.000001" 4) [queryEvent "BEGIN" 120] in
      Syncer.endPos s <= Syncer.endPos (update s (queryEvent "INSERT INTO t VALUES (1)" 300))).
Proof.
  split.
  - apply (proj1 (update_end_offset GTID convertAny trimSpaceASCII
                    (recorderAt "mysql-bin.000001" 4) [queryEvent "BEGIN" 120]
                    (rotateEvent "mysql-bin.000002" 500))).
    vm_compute. discriminate.
  - apply (proj2 (update_end_offset GTID convertAny trimSpaceASCII
                    (recorderAt "mysql-bin.000001" 4) [queryEvent "BEGIN" 120]
                    (queryEvent "INSERT INTO t VALUES (1)" 300))).
    + reflexivity.
    + vm_compute. discriminate.
Defined.

(** C1 as stated fails: two query events of one file, the second with the
    smaller log position, take the end offset from 100 down to 50 while the
    file name stays. *)
Lemma update_end_offset_decreases :
  let l1 := updates (recorderAt "mysql-bin.000001" 4)
                    [queryEvent "INSERT INTO t VALUES (1)" 100] in
  let l2 := update l1 (queryEvent "INSERT INTO t VALUES (2)" 50) in
  Syncer.endName l2 = Syncer.endName l1
  /\ Syncer.isRotate (queryEvent "INSERT INTO t VALUES (2)" 50) = false
  /\ Syncer.endPos l1 = 100
  /\ Syncer.endPos l2 = 50
  /\ Syncer.endPos l2 < Syncer.endPos l1.
Proof. vm_compute. repeat split. Qed.

(** A statement-mode transaction of two statements. *)
Lemma begin_commit_txn_end_witness :
  let l := recorderAt "mysql-bin.000001" 4 in
  let b := queryEvent "BEGIN" 120 in
  let mids := [queryEvent "INSERT INTO t VALUES (1)" 300;
               queryEvent "UPDATE t SET a = 2" 480] in
  let c := queryEvent " COMMIT " 560 in
  (forall k : nat,
     Syncer.txnEndLocation (updates l (b :: firstn k mids)) = Syncer.txnEndLocation l)
  /\ Syncer.txnEndLocation (updates l (b :: mids ++ [c]))
     = Syncer.Clone (Syncer.curEndLocation (updates l (b :: mids ++ [c]))).
Proof.
  apply (begin_commit_txn_end GTID convertAny trimSpaceASCII
           (recorderAt "mysql-bin.000001" 4)
           (queryEvent "BEGIN" 120)
           [queryEvent "INSERT INTO t VALUES (1)" 300;
            queryEvent "UPDATE t SET a = 2" 480]
           (queryEvent " COMMIT " 560)).
  - reflexivity.
  - reflexivity.
  - repeat constructor.
  - reflexivity.
  - reflexivity.
Defined.

(** C2 as stated fails: a [BEGIN] query event flagged artificial is skipped
    before its text is read, the DML flag stays down, and the query event
    after it moves the transaction end although it is not the final
    [COMMIT]. *)
Lemma begin_commit_txn_end_artificial_begin :
  let l := recorderAt "mysql-bin.000001" 4 in
  let b := artificialQueryEvent "BEGIN" 120 in
  let m := queryEvent "INSERT INTO t VALUES (1)" 300 in
  Syncer.queryText trimSpaceASCII b = Some "BEGIN"
  /\ Syncer.notCommitQuery trimSpaceASCII m = true
  /\ Syncer.txnEndLocation (updates l [b]) = locationAt "mysql-bin.000001" 4
  /\ Syncer.txnEndLocation (updates l [b; m])
     = Syncer.mkLocation (mkPosition "mysql-bin.000001" 300) "g" 0
  /\ Syncer.txnEndLocation (updates l [b; m]) <> Syncer.txnEndLocation l.
Proof. vm_compute. repeat split. discriminate. Qed.

(** *** The reader *)

Import Streamer.

Lemma fileSizeUpdated_three_way_witness :
  fileSizeUpdated (fsWith 100 []) lastFile 100 = Ok 0
  /\ fileSizeUpdated (fsWith 200 []) lastFile 100 = Ok 1
  /\ exists msg, fileSizeUpdated (fsWith 50 []) lastFile 100 = Panic msg.
Proof.
  split; [ | split ].
  - apply (fileSizeUpdated_three_way (fsWith 100 []) lastFile 100 100);
      reflexivity.
  - apply (fileSizeUpdated_three_way (fsWith 200 []) lastFile 100 200);
      reflexivity.
  - apply (fileSizeUpdated_three_way (fsWith 50 []) lastFile 100 50);
      reflexivity.
Defined.

Lemma onEventFunc_skips_relay_writer_event_witness :
  onEventFunc specHelpers "000001" 4 relayWriterEvent (startState oneEpoch)
  = (startState oneEpoch, Ok 4).
Proof.
  apply (onEventFunc_skips_relay_writer_event GTID specHelpers "000001" 4
           relayWriterEvent (startState oneEpoch)).
  vm_compute. discriminate.
Defined.







Lemma parseFile_decoder_error_witness :
  parseFile specHelpers (envOf [] (Some eofError) (fsWith 4 u2Files))
            "mysql-bin.000003" 4 "relay/u1.000001" true "u1.000001" true
            (startState twoEpochs)
  = parseFile specHelpers (withoutDecodeError (envOf [] (Some eofError) (fsWith 4 u2Files)))
              "mysql-bin.000003" 4 "relay/u1.000001" true "u1.000001" true
              (startState twoEpochs)
  /\ parseFile specHelpers (envOf [] (Some otherError) (fsWith 4 u2Files))
               "mysql-bin.000003" 4 "relay/u1.000001" true "u1.000001" true
               (startState twoEpochs)
     = (mkState twoEpochs [fakeRotate 4], Err (ErrTrace otherError))
  /\ parseFile specHelpers (envOf [] (Some eofError) (fsWith 4 u2Files))
               "mysql-bin.000003" 4 "relay/u1.000001" true "u1.000001" false
               (startState twoEpochs)
     = (mkState twoEpochs [fakeRotate 4], Err (ErrTrace eofError)).
Proof.
  split; [ | split ].
  - apply (proj1 (parseFile_decoder_error GTID specHelpers
                    (envOf [] (Some eofError) (fsWith 4 u2Files))
                    "mysql-bin.000003" 4 "relay/u1.000001" true "u1.000001" true
                    (startState twoEpochs) eofError eq_refl));
      reflexivity.
  - apply (proj2 (parseFile_decoder_error GTID specHelpers
                    (envOf [] (Some otherError) (fsWith 4 u2Files))
                    "mysql-bin.000003" 4 "relay/u1.000001" true "u1.000001" true
                    (startState twoEpochs) otherError eq_refl)
             (or_intror eq_refl) "u1" 1 (mkState twoEpochs [fakeRotate 4]) 4);
      reflexivity.
  - apply (proj2 (parseFile_decoder_error GTID specHelpers
                    (envOf [] (Some eofError) (fsWith 4 u2Files))
                    "mysql-bin.000003" 4 "relay/u1.000001" true "u1.000001" false
                    (startState twoEpochs) eofError eq_refl)
             (or_introl eq_refl) "u1" 1 (mkState twoEpochs [fakeRotate 4]) 4);
      reflexivity.
Defined.

(** C6 as stated fails twice.  After a premature end of the stream on the
    last file [parseFile] can still return an error: here the next epoch's
    directory holds no relay file.  And the error returned for another
    decoder error is the decoder's error traced: its message is the
    decoder's, with neither the file nor the offset in it. *)
Lemma parseFile_decoder_error_without_context :
  Contains (Error eofError) "err EOF" = true
  /\ snd (parseFile specHelpers (envOf [] (Some eofError) (fsWith 4 ["relay.meta"]))
                    "mysql-bin.000003" 4 "relay/u1.000001" true "u1.000001" true
                    (startState twoEpochs))
     = Err (ErrTrace (ErrTrace (ErrNotFound "binlog files in dir relay/u2.000002")))
  /\ (let res := snd (parseFile specHelpers (envOf [] (Some otherError) (fsWith 4 u2Files))
                                "mysql-bin.000003" 4 "relay/u1.000001" true "u1.000001" true
                                (startState twoEpochs)) in
      res = Err (ErrTrace otherError)
      /\ Error (ErrTrace otherError) = "invalid event type"
      /\ Contains (Error (ErrTrace otherError)) "mysql-bin.000003" = false
      /\ Contains (Error (ErrTrace otherError)) (fmtInt 4) = false).
Proof. vm_compute. repeat split. Qed.

Lemma parseFile_switch_reparse_witness :
  (let res := mkParse true false 0 "u2.000002" "mysql-bin.000001" in
   needSwitch res && needReParse res = false /\ true = true)
  /\ (let res := mkParse false false 1300 "" "" in
      needSwitch res = false
      /\ needReParse res = false
      /\ snd (parseFile specHelpers (envOf [queryEvent "x" 1300] None (fsWith 9999 []))
                        "mysql-bin.000003" 4 "relay/u1.000001" true "u1.000001" false
                        (withUUIDs ["u0.000001"; "u1.000001"; "u2.000002"]
                                   (startState oneEpoch)))
         = Ok res).
Proof.
  split.
  - pose proof (parseFile_switch_reparse GTID specHelpers
                  (envOf [queryEvent "x" 1300] None (fsWith 1300 u2Files))
                  "mysql-bin.000003" 4 "relay/u1.000001" true "u1.000001" true
                  (startState twoEpochs)
                  (mkState (set_latestServerID twoEpochs 1)
                           [fakeRotate 4; queryEvent "x" 1300])
                  (mkParse true false 0 "u2.000002" "mysql-bin.000001")
                  eq_refl) as (Hboth & Hlast & _).
    split; [ exact Hboth | apply Hlast; reflexivity ].
  - pose proof (parseFile_switch_reparse GTID specHelpers
                  (envOf [queryEvent "x" 1300] None (fsWith 1300 u2Files))
                  "mysql-bin.000003" 4 "relay/u1.000001" true "u1.000001" false
                  (startState oneEpoch)
                  (mkState (set_latestServerID oneEpoch 1)
                           [fakeRotate 4; queryEvent "x" 1300])
                  (mkParse false false 1300 "" "")
                  eq_refl) as (_ & _ & Hnot).
    destruct (Hnot eq_refl) as (Hs & Hr & Hany).
    split; [ exact Hs | split; [ exact Hr | ] ].
    apply (Hany (envOf [queryEvent "x" 1300] None (fsWith 9999 []))
                ["u0.000001"; "u1.000001"; "u2.000002"]).
    reflexivity.
Defined.

End OnConcreteInputs.

(** * Further properties *)

(** ** The location recorder *)

Section RecorderMore.
Import Replication Syncer Boundaries.

Variable GTIDSet : Type.
Variable convertGTID : GTIDSet -> GTIDSet -> option GTIDSet.
Variable TrimSpace : string -> string.

Lemma setCurrentGTID_curStart (l : locationRecorder GTIDSet) (g : GTIDSet) :
  curStartLocation (setCurrentGTID convertGTID l g) = curStartLocation l.
Proof.
  unfold setCurrentGTID, SetGTID.
  destruct (convertGTID _ g); reflexivity.
Qed.

(** The start location after an update is the end location before it. *)
Lemma update_curStart (l : locationRecorder GTIDSet) (e : BinlogEvent GTIDSet) :
  curStartLocation (update convertGTID TrimSpace l e) = curEndLocation l.
Proof.
  unfold update.
  destruct (shouldUpdatePos e); cbn [negb]; [ | reflexivity ].
  destruct (Body e) as [p next | x g | q g | f | ].
  - destruct (negb _); reflexivity.
  - cbn. apply setCurrentGTID_curStart.
  - destruct (String.eqb (TrimSpace q) "BEGIN");
      [ | destruct (String.eqb (TrimSpace q) "COMMIT") ]; cbn;
      try reflexivity; try apply setCurrentGTID_curStart.
    destruct (inDML l); cbn; [ reflexivity | apply setCurrentGTID_curStart ].
  - destruct (negb _); reflexivity.
  - reflexivity.
Qed.

(** X1.  After every event of a sequence, the start location is the end
    location the recorder had before that event. *)
Theorem updates_start_is_previous_end (l : locationRecorder GTIDSet)
    (es : list (BinlogEvent GTIDSet)) (e : BinlogEvent GTIDSet) :
  curStartLocation (updates convertGTID TrimSpace l (es ++ [e]))
  = curEndLocation (updates convertGTID TrimSpace l es).
Proof.
  unfold updates. rewrite fold_left_app. cbn [fold_left].
  apply update_curStart.
Qed.

Lemma artificial_flag_bit (flags : Z) :
  Z.testbit flags 5 = true ->
  (Z.land flags LOG_EVENT_ARTIFICIAL_F =? 0) = false.
Proof.
  intros Hbit. apply Z.eqb_neq. intros E.
  assert (Hb : Z.testbit (Z.land flags LOG_EVENT_ARTIFICIAL_F) 5 = true).
  { rewrite Z.land_spec, Hbit. reflexivity. }
  rewrite E in Hb. cbn in Hb. discriminate.
Qed.

(** X2.  An event whose header type is one of the skipped types, or whose
    flags have bit 5 (LOG_EVENT_ARTIFICIAL_F) set, only copies the end
    location to the start location: end location, transaction end and DML
    flag stay. *)
Theorem update_skipped_event (l : locationRecorder GTIDSet) (e : BinlogEvent GTIDSet) :
  In (EventType (Header e)) skippedTypes \/ Z.testbit (Flags (Header e)) 5 = true ->
  update convertGTID TrimSpace l e
  = mkRecorder (curEndLocation l) (curEndLocation l) (txnEndLocation l) (inDML l).
Proof.
  intros Hskip.
  assert (Hs : shouldUpdatePos e = false).
  { unfold shouldUpdatePos. destruct Hskip as [Hin | Hbit].
    - unfold skippedTypes in Hin. cbn [In] in Hin.
      destruct Hin as [E | [E | [E | [E | [E | []]]]]]; rewrite <- E; cbn;
        rewrite ?orb_true_r; reflexivity.
    - rewrite (artificial_flag_bit _ Hbit). cbn.
      destruct (_ || _); reflexivity. }
  unfold update. rewrite Hs. reflexivity.
Qed.

(** X3.  A position-advancing XID event, whatever the DML flag was: the
    transaction end becomes the end location, the flag is cleared, the end
    position is the event's log position in the same file, and the end GTID
    set is the converted set of the event, or the old one when the
    conversion fails. *)
Theorem update_xid_event (l : locationRecorder GTIDSet) (e : BinlogEvent GTIDSet)
    (x : Z) (g : GTIDSet) :
  shouldUpdatePos e = true ->
  Body e = XIDEvent x g ->
  let l' := update convertGTID TrimSpace l e in
  txnEndLocation l' = curEndLocation l'
  /\ inDML l' = false
  /\ LPosition (curEndLocation l') = mkPosition (endName l) (LogPos (Header e))
  /\ gtidSet (curEndLocation l')
     = match convertGTID (gtidSet (curEndLocation l)) g with
       | Some g' => g'
       | None => gtidSet (curEndLocation l)
       end.
Proof.
  intros Hs Hb. unfold update. rewrite Hs, Hb. cbn [negb].
  unfold setCurrentGTID, SetGTID. cbn.
  destruct (convertGTID (gtidSet (curEndLocation l)) g); cbn; repeat split.
Qed.

(** X4.  A position-advancing rotation event.  To the file the end location
    is in: only the start location is set.  To another file: the end
    location is that file at the file-header length with the GTID set and
    suffix kept, the transaction end is the end location, and the DML flag
    stays; the event's own log position is not used. *)
Theorem update_rotate_event (l : locationRecorder GTIDSet) (e : BinlogEvent GTIDSet)
    (p : Z) (next : string) :
  shouldUpdatePos e = true ->
  Body e = RotateEvent p next ->
  (next = endName l ->
   update convertGTID TrimSpace l e
   = mkRecorder (curEndLocation l) (curEndLocation l) (txnEndLocation l) (inDML l))
  /\ (next <> endName l ->
      let l' := update convertGTID TrimSpace l e in
      curEndLocation l'
      = mkLocation (mkPosition next FileHeaderLen) (gtidSet (curEndLocation l))
                   (Suffix (curEndLocation l))
      /\ txnEndLocation l' = curEndLocation l'
      /\ inDML l' = inDML l).
Proof.
  intros Hs Hb. unfold update. rewrite Hs, Hb. cbn [negb].
  change (endName (mkRecorder (curEndLocation l) (curEndLocation l)
                              (txnEndLocation l) (inDML l)))
    with (endName l).
  split; intros Hn.
  - rewrite Hn, String.eqb_refl. reflexivity.
  - destruct (String.eqb_spec (endName l) next) as [E | E]; [ congruence | ].
    cbn. repeat split.
Qed.

(** While the DML flag is up, an event that does not close the transaction
    keeps the flag, the transaction end and the end file name. *)
Lemma update_inside_transaction (l : locationRecorder GTIDSet) (e : BinlogEvent GTIDSet) :
  inDML l = true ->
  closesTransaction TrimSpace (endName l) e = false ->
  inDML (update convertGTID TrimSpace l e) = true
  /\ txnEndLocation (update convertGTID TrimSpace l e) = txnEndLocation l
  /\ endName (update convertGTID TrimSpace l e) = endName l.
Proof.
  unfold closesTransaction, update. intros Hd Hc.
  destruct (shouldUpdatePos e); cbn [negb andb] in *; [ | repeat split; exact Hd ].
  change (endName (mkRecorder (curEndLocation l) (curEndLocation l)
                              (txnEndLocation l) (inDML l)))
    with (endName l).
  destruct (Body e) as [p next | x g | q g | f | ].
  - rewrite Hc. repeat split. exact Hd.
  - discriminate.
  - rewrite Hc.
    destruct (String.eqb (TrimSpace q) "BEGIN"); cbn; [ repeat split | ].
    rewrite Hd. repeat split.
  - destruct (negb (IsDDL f)); cbn; repeat split. exact Hd.
  - cbn. repeat split. exact Hd.
Qed.

Lemma updates_inside_transaction (es : list (BinlogEvent GTIDSet)) :
  forall l : locationRecorder GTIDSet,
  inDML l = true ->
  Forall (fun e => closesTransaction TrimSpace (endName l) e = false) es ->
  inDML (updates convertGTID TrimSpace l es) = true
  /\ txnEndLocation (updates convertGTID TrimSpace l es) = txnEndLocation l
  /\ endName (updates convertGTID TrimSpace l es) = endName l.
Proof.
  induction es as [ | e es IH]; intros l Hd Hall.
  - repeat split. exact Hd.
  - inversion Hall as [ | e' es' He Hes]; subst.
    destruct (update_inside_transaction l e Hd He) as (Hd' & Ht' & Hn').
    assert (Hes' : Forall (fun e0 => closesTransaction TrimSpace
                             (endName (update convertGTID TrimSpace l e)) e0 = false) es).
    { rewrite Hn'. exact Hes. }
    destruct (IH _ Hd' Hes') as (Hd'' & Ht'' & Hn'').
    unfold updates in *. cbn [fold_left]. repeat split; congruence.
Qed.

(** X5.  While the DML flag is up, a sequence of events none of which is a
    position-advancing XID event, [COMMIT] query event or rotation to
    another file keeps, at every step, the flag up, the transaction end and
    the end file name. *)
Theorem updates_keep_txn_end_inside_transaction (l : locationRecorder GTIDSet)
    (es : list (BinlogEvent GTIDSet)) :
  inDML l = true ->
  Forall (fun e => closesTransaction TrimSpace (endName l) e = false) es ->
  forall k : nat,
    let s := updates convertGTID TrimSpace l (firstn k es) in
    inDML s = true
    /\ txnEndLocation s = txnEndLocation l
    /\ endName s = endName l.
Proof.
  intros Hd Hall k s. subst s.
  apply updates_inside_transaction.
  - exact Hd.
  - apply Forall_prefix. exact Hall.
Qed.

(** What an update does to the transaction end: it keeps it, with the end
    file name, or sets it to the new end location. *)
Lemma update_txnEnd_cases (l : locationRecorder GTIDSet) (e : BinlogEvent GTIDSet) :
  (txnEndLocation (update convertGTID TrimSpace l e) = txnEndLocation l
   /\ endName (update convertGTID TrimSpace l e) = endName l)
  \/ txnEndLocation (update convertGTID TrimSpace l e)
     = curEndLocation (update convertGTID TrimSpace l e).
Proof.
  unfold update.
  destruct (shouldUpdatePos e); cbn [negb]; [ | left; split; reflexivity ].
  change (endName (mkRecorder (curEndLocation l) (curEndLocation l)
                              (txnEndLocation l) (inDML l)))
    with (endName l).
  destruct (Body e) as [p next | x g | q g | f | ].
  - destruct (negb (String.eqb (endName l) next));
      [ right; reflexivity | left; split; reflexivity ].
  - right. reflexivity.
  - destruct (String.eqb (TrimSpace q) "BEGIN");
      [ left; split; reflexivity | ].
    destruct (String.eqb (TrimSpace q) "COMMIT"); cbn; [ right; reflexivity | ].
    destruct (inDML l); cbn; [ left; split; reflexivity | right; reflexivity ].
  - left. destruct (negb (IsDDL f)); split; reflexivity.
  - left. split; reflexivity.
Qed.

(** X6.  If the transaction end is in the file of the end location, it still
    is after any sequence of events. *)
Theorem updates_txn_end_in_end_file (l : locationRecorder GTIDSet)
    (es : list (BinlogEvent GTIDSet)) :
  txnEndName l = endName l ->
  txnEndName (updates convertGTID TrimSpace l es)
  = endName (updates convertGTID TrimSpace l es).
Proof.
  revert l. induction es as [ | e es IH]; intros l Hl; [ exact Hl | ].
  unfold updates. cbn [fold_left]. apply IH.
  destruct (update_txnEnd_cases l e) as [[Ht Hn] | Ht].
  - unfold txnEndName. rewrite Ht, Hn. exact Hl.
  - unfold txnEndName, endName. rewrite Ht. reflexivity.
Qed.

(** X7.  After an update the transaction end is the one before or the new
    end location; a MariaDB GTID event or an event without a decoded body of
    its own never moves it. *)
Theorem update_txn_end_old_or_new (l : locationRecorder GTIDSet) (e : BinlogEvent GTIDSet) :
  (txnEndLocation (update convertGTID TrimSpace l e) = txnEndLocation l
   \/ txnEndLocation (update convertGTID TrimSpace l e)
      = curEndLocation (update convertGTID TrimSpace l e))
  /\ ((exists f, Body e = MariadbGTIDEvent f) \/ Body e = GenericEvent ->
      txnEndLocation (update convertGTID TrimSpace l e) = txnEndLocation l).
Proof.
  split.
  - destruct (update_txnEnd_cases l e) as [[Ht _] | Ht]; [ left | right ]; exact Ht.
  - intros Hb. unfold update.
    destruct (shouldUpdatePos e); cbn [negb]; [ | reflexivity ].
    destruct Hb as [[f Hb] | Hb]; rewrite Hb; [ | reflexivity ].
    destruct (negb (IsDDL f)); reflexivity.
Qed.

(** X8.  A transaction opened by a position-advancing MariaDB GTID event
    that is not a DDL: the transaction end stays through the events that do
    not close the transaction, and the position-advancing XID event sets it
    to the end location and clears the flag. *)
Theorem mariadb_transaction_txn_end (l : locationRecorder GTIDSet)
    (g : BinlogEvent GTIDSet) (flags : Z) (mids : list (BinlogEvent GTIDSet))
    (c : BinlogEvent GTIDSet) (x : Z) (gset : GTIDSet) :
  shouldUpdatePos g = true ->
  Body g = MariadbGTIDEvent flags ->
  IsDDL flags = false ->
  Forall (fun e => closesTransaction TrimSpace (endName l) e = false) mids ->
  shouldUpdatePos c = true ->
  Body c = XIDEvent x gset ->
  (forall k : nat,
     txnEndLocation (updates convertGTID TrimSpace l (g :: firstn k mids))
     = txnEndLocation l)
  /\ (let s := updates convertGTID TrimSpace l (g :: mids ++ [c]) in
      txnEndLocation s = curEndLocation s /\ inDML s = false).
Proof.
  intros Hsg Hbg Hddl Hmids Hsc Hbc.
  assert (Hg : inDML (update convertGTID TrimSpace l g) = true
               /\ txnEndLocation (update convertGTID TrimSpace l g) = txnEndLocation l
               /\ endName (update convertGTID TrimSpace l g) = endName l).
  { unfold update. rewrite Hsg, Hbg, Hddl. cbn. repeat split. }
  destruct Hg as (Hd & Ht & Hn).
  split.
  - intros k.
    assert (Hk : Forall (fun e => closesTransaction TrimSpace
                           (endName (update convertGTID TrimSpace l g)) e = false)
                        (firstn k mids)).
    { rewrite Hn. apply Forall_prefix. exact Hmids. }
    destruct (updates_inside_transaction (firstn k mids) _ Hd Hk) as (_ & Hk' & _).
    unfold updates in *. cbn [fold_left]. congruence.
  - unfold updates. cbn [fold_left]. rewrite fold_left_app. cbn [fold_left].
    set (s := fold_left (update convertGTID TrimSpace) mids
                        (update convertGTID TrimSpace l g)).
    unfold update. rewrite Hsc, Hbc. cbn [negb].
    unfold setCurrentGTID, SetGTID. cbn.
    destruct (convertGTID _ gset); cbn; split; reflexivity.
Qed.
End RecorderMore.

(** ** The reader: index, directories, positions and the stream *)

Section ReaderMore.
Import Replication Streamer Driver.

Variable G : Type.
Variable H : Helpers.

Ltac run := unfold bind, recordServerID, send, ret, panic, fail, getReader.

(** *** The index of epochs *)

Lemma NoDup_nth_error_inj (us : list string) (i j : nat) (u : string) :
  NoDup us -> nth_error us i = Some u -> nth_error us j = Some u -> i = j.
Proof.
  intros Hnd Hi Hj.
  apply (proj1 (NoDup_nth_error us) Hnd).
  - apply nth_error_Some. congruence.
  - congruence.
Qed.

(** X9.  In an index without duplicates [getNextUUID] returns the UUID that
    follows the given one with its suffix as a string (of 0 when the suffix
    does not parse), and two empty strings for the last UUID of the index
    and for a UUID that is not in it. *)
Theorem getNextUUID_in_order (r : BinlogReader) (cur : string) :
  NoDup (uuids r) ->
  (forall (i : nat) (next : string),
     nth_error (uuids r) i = Some cur ->
     nth_error (uuids r) (S i) = Some next ->
     getNextUUID H r cur
     = (next, SuffixIntToStr H match ParseSuffixForUUID H next with
                               | inr (_, n) => n
                               | inl _ => 0
                               end))
  /\ (forall i : nat,
        nth_error (uuids r) i = Some cur ->
        nth_error (uuids r) (S i) = None ->
        getNextUUID H r cur = ("", ""))
  /\ (~ In cur (uuids r) -> getNextUUID H r cur = ("", "")).
Proof.
  intros Hnd. split; [ | split ].
  - intros i next Hcur Hnext. unfold getNextUUID.
    assert (Hlen : (S i < List.length (uuids r))%nat).
    { apply nth_error_Some. congruence. }
    rewrite (scanNextUUID_last (uuids r) cur i).
    + rewrite (nth_error_nth_default _ _ _ Hnext). reflexivity.
    + lia.
    + apply nth_error_nth_default. exact Hcur.
    + intros j Hj Hat.
      assert (E : nth_error (uuids r) j = Some cur).
      { rewrite <- Hat. apply nth_error_nth'. lia. }
      pose proof (NoDup_nth_error_inj _ _ _ _ Hnd Hcur E). lia.
  - intros i Hcur Hnone. unfold getNextUUID.
    rewrite scanNextUUID_none; [ reflexivity | ].
    intros j Hj Hat.
    assert (E : nth_error (uuids r) j = Some cur).
    { rewrite <- Hat. apply nth_error_nth'. lia. }
    pose proof (NoDup_nth_error_inj _ _ _ _ Hnd Hcur E) as Hij. subst j.
    apply nth_error_None in Hnone. lia.
  - intros Hnot. unfold getNextUUID.
    rewrite scanNextUUID_none; [ reflexivity | ].
    intros j Hj Hat. apply Hnot. rewrite <- Hat. apply nth_In. lia.
Qed.

(** *** The first file of an epoch *)

Lemma firstBinlogIn_ok (fpath : string) (files : list string) (f : string) :
  firstBinlogIn H fpath files = Ok f <->
  exists metas rest,
    files = (metas ++ f :: rest)%list
    /\ Forall (fun m => m = MetaFilename H) metas
    /\ f <> MetaFilename H
    /\ exists b, parseBinlogFile H f = inr b.
Proof.
  split.
  - induction files as [ | x files IH]; cbn [firstBinlogIn]; [ discriminate | ].
    destruct (String.eqb_spec x (MetaFilename H)) as [E | E].
    + intros Hok. destruct (IH Hok) as (metas & rest & -> & Hm & Hf & Hp).
      exists (x :: metas), rest. repeat split; try assumption.
      constructor; assumption.
    + destruct (parseBinlogFile H x) as [e | b] eqn:Hp; [ discriminate | ].
      intros Hok. injection Hok as <-.
      exists [], files. repeat split; [ constructor | assumption | exists b; exact Hp ].
  - intros (metas & rest & -> & Hm & Hf & b & Hp).
    induction metas as [ | m metas IH]; cbn [app firstBinlogIn].
    + destruct (String.eqb_spec f (MetaFilename H)) as [E | E]; [ contradiction | ].
      rewrite Hp. reflexivity.
    + inversion Hm as [ | m' metas' Hm1 Hm2]; subst.
      rewrite String.eqb_refl. apply IH. exact Hm2.
Qed.

(** X10.  [getFirstBinlogName] returns a name exactly when the directory is
    read, the name is its first entry that is not the meta file, and the
    name parses as a binlog file name. *)
Theorem getFirstBinlogName_ok (r : BinlogReader) (fs : FileSystem) (uuid f : string) :
  getFirstBinlogName H r fs uuid = Ok f <->
  exists metas rest,
    readDir fs (Join H (RelayDir r) uuid) = inr (metas ++ f :: rest)%list
    /\ Forall (fun m => m = MetaFilename H) metas
    /\ f <> MetaFilename H
    /\ exists b, parseBinlogFile H f = inr b.
Proof.
  unfold getFirstBinlogName.
  destruct (readDir fs (Join H (RelayDir r) uuid)) as [e | files].
  - split; [ discriminate | ].
    intros (metas & rest & Hd & _). discriminate.
  - rewrite firstBinlogIn_ok. split.
    + intros (metas & rest & -> & Hrest). exists metas, rest. split; [ reflexivity | exact Hrest ].
    + intros (metas & rest & Hd & Hrest). injection Hd as ->.
      exists metas, rest. split; [ reflexivity | exact Hrest ].
Qed.

(** X11.  A directory with nothing but meta files gives the not-found error;
    a first entry other than the meta file that does not parse gives the
    not-valid error, whatever follows it. *)
Theorem getFirstBinlogName_errors (r : BinlogReader) (fs : FileSystem) (uuid : string)
    (metas : list string) :
  Forall (fun m => m = MetaFilename H) metas ->
  (readDir fs (Join H (RelayDir r) uuid) = inr metas ->
   getFirstBinlogName H r fs uuid
   = Err (ErrNotFound ("binlog files in dir " ++ Join H (RelayDir r) uuid)))
  /\ (forall (f : string) (rest : list string) (e : error),
        readDir fs (Join H (RelayDir r) uuid) = inr (metas ++ f :: rest)%list ->
        f <> MetaFilename H ->
        parseBinlogFile H f = inl e ->
        getFirstBinlogName H r fs uuid = Err (ErrNotValid ("binlog file " ++ f))).
Proof.
  intros Hm. unfold getFirstBinlogName. split.
  - intros ->. induction metas as [ | m metas IH]; cbn [firstBinlogIn]; [ reflexivity | ].
    inversion Hm as [ | m' metas' Hm1 Hm2]; subst.
    rewrite String.eqb_refl. apply IH. exact Hm2.
  - intros f rest e -> Hf Hp.
    induction metas as [ | m metas IH]; cbn [app firstBinlogIn].
    + destruct (String.eqb_spec f (MetaFilename H)) as [E | E]; [ contradiction | ].
      rewrite Hp. reflexivity.
    + inversion Hm as [ | m' metas' Hm1 Hm2]; subst.
      rewrite String.eqb_refl. apply IH. exact Hm2.
Qed.

(** *** The change-wait *)

(** X12.  With the watcher added and started and the size of the latest file
    read: a larger file returns the latest file path without waiting for
    the watcher, an unchanged size returns what the watcher reports, and a
    smaller file panics. *)
Theorem relaySubDirUpdated_outcomes (w : Watcher) (fs : FileSystem)
    (dir latestFilePath : string) (latestFileSize currSize : Z) :
  addErr w = None ->
  startErr w = None ->
  Stat fs latestFilePath = inr currSize ->
  (currSize > latestFileSize ->
   relaySubDirUpdated w fs dir latestFilePath latestFileSize = Ok latestFilePath)
  /\ (currSize = latestFileSize ->
      relaySubDirUpdated w fs dir latestFilePath latestFileSize
      = match watchErr w with
        | Some e => Err e
        | None => Ok (watchPath w)
        end)
  /\ (currSize < latestFileSize ->
      exists msg,
        relaySubDirUpdated w fs dir latestFilePath latestFileSize = Panic msg).
Proof.
  intros Ha Hs Hstat. unfold relaySubDirUpdated. rewrite Ha, Hs.
  rewrite (fileSizeUpdated_stat fs latestFilePath latestFileSize currSize Hstat).
  destruct (Z.eqb_spec currSize latestFileSize) as [E | E];
    destruct (Z.gtb_spec currSize latestFileSize) as [L | L];
    repeat split; intros Hc; try lia; try reflexivity.
  eexists; reflexivity.
Qed.

(** *** Positions with an epoch suffix *)

Lemma prefix_separator (c : ascii) (s : string) :
  prefix posUUIDSuffixSeparator (String c s)
  = if ascii_dec "|" c then true else false.
Proof.
  unfold posUUIDSuffixSeparator. cbn [prefix].
  destruct (ascii_dec "|" c); [ destruct s; reflexivity | reflexivity ].
Qed.

Lemma index_cons (sep : string) (c : ascii) (s : string) :
  index 0 sep (String c s)
  = if prefix sep (String c s) then Some 0%nat
    else match index 0 sep s with
         | Some n => Some (S n)
         | None => None
         end.
Proof. reflexivity. Qed.

Lemma index_separator (base rest : string) :
  index 0 posUUIDSuffixSeparator base = None ->
  index 0 posUUIDSuffixSeparator (base ++ posUUIDSuffixSeparator ++ rest)
  = Some (String.length base).
Proof.
  induction base as [ | c base IH]; intros Hno.
  - change ("" ++ posUUIDSuffixSeparator ++ rest) with (String "|" rest).
    rewrite index_cons, prefix_separator.
    destruct (ascii_dec "|" "|") as [_ | Hne]; [ reflexivity | contradiction ].
  - change (String c base ++ posUUIDSuffixSeparator ++ rest)
      with (String c (base ++ posUUIDSuffixSeparator ++ rest)).
    rewrite index_cons, prefix_separator in Hno |- *.
    destruct (ascii_dec "|" c) as [E | E]; [ discriminate Hno | ].
    destruct (index 0 posUUIDSuffixSeparator base) as [n | ]; [ discriminate Hno | ].
    rewrite (IH eq_refl). reflexivity.
Qed.

Lemma substring_prefix (a b : string) :
  substring 0 (String.length a) (a ++ b) = a.
Proof.
  induction a as [ | c a IH]; cbn.
  - destruct b; reflexivity.
  - rewrite IH. reflexivity.
Qed.

Lemma substring_skip (a b : string) (m : nat) :
  substring (String.length a) m (a ++ b) = substring 0 m b.
Proof. induction a as [ | c a IH]; cbn; [ reflexivity | exact IH ]. Qed.

Lemma substring_all (b : string) : substring 0 (String.length b) b = b.
Proof. induction b as [ | c b IH]; cbn; [ reflexivity | rewrite IH; reflexivity ]. Qed.

Lemma length_app (a b : string) :
  String.length (a ++ b) = (String.length a + String.length b)%nat.
Proof. induction a as [ | c a IH]; cbn; [ reflexivity | rewrite IH; reflexivity ]. Qed.

Lemma len_positive (s : string) : s <> "" -> len s > 0.
Proof. unfold len. destruct s; [ congruence | cbn; lia ]. Qed.

(** [extractPos] on a file name whose parsed base name is a base without
    separator, the separator and a suffix. *)
Lemma extractPos_with_suffix (r : BinlogReader) (pos : Position)
    (base suffix sequence : string) :
  uuids r <> [] ->
  parseBinlogFile H (Name pos)
  = inr (mkBinlogFile (base ++ posUUIDSuffixSeparator ++ suffix) sequence) ->
  base <> "" ->
  suffix <> "" ->
  Index base posUUIDSuffixSeparator = -1 ->
  extractPos H r pos
  = if len (GetUUIDBySuffix H (uuids r) suffix) >? 0
    then Ok (GetUUIDBySuffix H (uuids r) suffix, suffix,
             mkPosition (constructBinlogFilename H base sequence) (Pos pos))
    else Err (ErrNotFound ("UUID suffix " ++ suffix ++ " with UUIDs "
                             ++ fmtStrings (uuids r))).
Proof.
  intros Hne Hp Hb Hs Hidx. unfold extractPos.
  destruct (uuids r) as [ | u us] eqn:Hu; [ contradiction | ].
  change (Z.of_nat (List.length (u :: us)) =? 0) with false. cbv iota.
  rewrite Hp. cbn [baseName seq].
  assert (Hi : Index (base ++ posUUIDSuffixSeparator ++ suffix) posUUIDSuffixSeparator
               = len base).
  { unfold Index in *. rewrite index_separator; [ reflexivity | ].
    destruct (index 0 posUUIDSuffixSeparator base); [ lia | reflexivity ]. }
  rewrite Hi.
  assert (Hlen : len (base ++ posUUIDSuffixSeparator ++ suffix) = len base + 1 + len suffix).
  { unfold len. rewrite !length_app. cbn. lia. }
  pose proof (len_positive base Hb) as Hb'.
  pose proof (len_positive suffix Hs) as Hs'.
  rewrite Hlen. change (len posUUIDSuffixSeparator) with 1.
  destruct (Z.gtb_spec (len base) 0) as [_ | ?]; [ | lia ].
  destruct (Z.ltb_spec (len base + 1) (len base + 1 + len suffix)) as [_ | ?]; [ | lia ].
  cbn [andb].
  assert (Hreal : slice (base ++ posUUIDSuffixSeparator ++ suffix) 0 (len base) = base).
  { unfold slice, len. rewrite Z.sub_0_r, Nat2Z.id. apply substring_prefix. }
  assert (Hsfx : slice (base ++ posUUIDSuffixSeparator ++ suffix) (len base + 1)
                       (len base + 1 + len suffix) = suffix).
  { unfold slice, len.
    replace (Z.of_nat (String.length base) + 1 + Z.of_nat (String.length suffix)
             - (Z.of_nat (String.length base) + 1))
      with (Z.of_nat (String.length suffix)) by lia.
    replace (Z.to_nat (Z.of_nat (String.length base) + 1))
      with (String.length (base ++ posUUIDSuffixSeparator)).
    2:{ rewrite length_app. cbn. lia. }
    rewrite Nat2Z.id.
    replace (base ++ posUUIDSuffixSeparator ++ suffix)
      with ((base ++ posUUIDSuffixSeparator) ++ suffix).
    2:{ clear. induction base as [ | c base IH]; cbn; [ reflexivity | rewrite IH; reflexivity ]. }
    rewrite substring_skip. apply substring_all. }
  rewrite Hreal, Hsfx. reflexivity.
Qed.

(** X13.  Round trip: for a base name without separator and a suffix that an
    epoch of the index has, [extractPos] on the name made by
    [constructBinlogName] returns that epoch, the suffix, and the file name
    without suffix at the same offset. *)
Theorem extractPos_of_constructed_name (r : BinlogReader) (parsed : binlogFile)
    (suffix : string) (p : Z) :
  uuids r <> [] ->
  baseName parsed <> "" ->
  suffix <> "" ->
  Index (baseName parsed) posUUIDSuffixSeparator = -1 ->
  parseBinlogFile H (constructBinlogName parsed suffix)
  = inr (mkBinlogFile (baseName parsed ++ posUUIDSuffixSeparator ++ suffix) (seq parsed)) ->
  GetUUIDBySuffix H (uuids r) suffix <> "" ->
  extractPos H r (mkPosition (constructBinlogName parsed suffix) p)
  = Ok (GetUUIDBySuffix H (uuids r) suffix, suffix,
        mkPosition (constructBinlogFilename H (baseName parsed) (seq parsed)) p).
Proof.
  intros Hne Hb Hs Hidx Hp Hu.
  rewrite (extractPos_with_suffix r (mkPosition (constructBinlogName parsed suffix) p)
             (baseName parsed) suffix (seq parsed) Hne Hp Hb Hs Hidx).
  pose proof (len_positive _ Hu) as Hu'.
  destruct (Z.gtb_spec (len (GetUUIDBySuffix H (uuids r) suffix)) 0); [ reflexivity | lia ].
Qed.

(** X14.  A file name with a suffix that no epoch of the index has gives the
    not-found error; [extractPos] does not fall back to the last epoch. *)
Theorem extractPos_unknown_suffix (r : BinlogReader) (pos : Position)
    (base suffix sequence : string) :
  uuids r <> [] ->
  parseBinlogFile H (Name pos)
  = inr (mkBinlogFile (base ++ posUUIDSuffixSeparator ++ suffix) sequence) ->
  base <> "" ->
  suffix <> "" ->
  Index base posUUIDSuffixSeparator = -1 ->
  GetUUIDBySuffix H (uuids r) suffix = "" ->
  extractPos H r pos
  = Err (ErrNotFound ("UUID suffix " ++ suffix ++ " with UUIDs " ++ fmtStrings (uuids r))).
Proof.
  intros Hne Hp Hb Hs Hidx Hu.
  rewrite (extractPos_with_suffix r pos base suffix sequence Hne Hp Hb Hs Hidx).
  rewrite Hu. reflexivity.
Qed.

(** *** The stream of events *)

(** What one run of the callback sends, when it does not panic. *)
Lemma onEventFunc_sent (uuidSuffix : string) (p : Z) (e : BinlogEvent G) (st : State G) :
  (forall msg, snd (onEventFunc H uuidSuffix p e st) <> Panic msg) ->
  sent (fst (onEventFunc H uuidSuffix p e st))
  = (sent st ++ (if sentOn e then [asReceived H uuidSuffix e] else []))%list
  /\ uuids (reader (fst (onEventFunc H uuidSuffix p e st))) = uuids (reader st)
  /\ RelayDir (reader (fst (onEventFunc H uuidSuffix p e st))) = RelayDir (reader st)
  /\ exists p', snd (onEventFunc H uuidSuffix p e st) = Ok p'.
Proof.
  unfold onEventFunc, sentOn, asReceived.
  change LOG_EVENT_RELAY_LOG_F with 64.
  destruct (Z.land (Flags (Header e)) 64 =? 0); cbn [negb].
  2:{ intros _. cbn. rewrite app_nil_r. repeat split. eexists; reflexivity. }
  run.
  destruct (EventType (Header e) =? FORMAT_DESCRIPTION_EVENT).
  { intros _. cbn. repeat split. eexists; reflexivity. }
  destruct (EventType (Header e) =? ROTATE_EVENT).
  - destruct (Body e) as [q next | x g | q g | f | ];
      try (intros Hno; exfalso; eapply Hno; reflexivity).
    destruct (parseBinlogFile H next);
      [ intros Hno; exfalso; eapply Hno; reflexivity | ].
    intros _. cbn. repeat split. eexists; reflexivity.
  - intros _. cbn. repeat split. eexists; reflexivity.
Qed.

Lemma deliver_sent (uuidSuffix : string) (es : list (BinlogEvent G)) :
  forall (p : Z) (st : State G),
  (forall msg, snd (deliver H uuidSuffix p es st) <> Panic msg) ->
  sent (fst (deliver H uuidSuffix p es st))
  = (sent st ++ map (asReceived H uuidSuffix) (filter sentOn es))%list
  /\ uuids (reader (fst (deliver H uuidSuffix p es st))) = uuids (reader st)
  /\ RelayDir (reader (fst (deliver H uuidSuffix p es st))) = RelayDir (reader st)
  /\ exists p', snd (deliver H uuidSuffix p es st) = Ok p'.
Proof.
  induction es as [ | e es IH]; intros p st Hno; cbn [deliver].
  - cbn. rewrite app_nil_r. repeat split. eexists; reflexivity.
  - revert Hno. cbn [deliver]. unfold bind.
    pose proof (onEventFunc_sent uuidSuffix p e st) as He.
    destruct (onEventFunc H uuidSuffix p e st) as [st1 [p1 | err | msg]]; cbn [fst snd] in *.
    + intros Hno.
      destruct He as (Hs1 & Hu1 & Hd1 & _); [ intros msg; discriminate | ].
      destruct (IH p1 st1 Hno) as (Hs & Hu & Hd & Hp).
      rewrite Hs, Hs1, Hu, Hu1, Hd, Hd1. repeat split; [ | exact Hp ].
      cbn [filter]. destruct (sentOn e); cbn [map app].
      * rewrite <- app_assoc. reflexivity.
      * rewrite app_nil_r. reflexivity.
    + intros _. destruct He as (_ & _ & _ & p' & Hp'); [ intros msg; discriminate | ].
      discriminate Hp'.
    + intros Hno. exfalso. eapply Hno. reflexivity.
Qed.


Lemma parseEvents_deliver (env : Env G) (relayLogFile : string) (offset : Z)
    (fullPath : string) (firstParse : bool) (uuidSuffix : string) (st : State G) :
  parseEvents H env relayLogFile offset fullPath firstParse uuidSuffix st
  = deliver H uuidSuffix offset
            (eventsOfParse env relayLogFile offset fullPath firstParse st) st.
Proof. destruct firstParse; reflexivity. Qed.

(** A successful [parseFile] sends what the callback sends on its events,
    and keeps the index and the relay directory of the reader. *)
Lemma parseFile_success_state (env : Env G) (relayLogFile : string) (offset : Z)
    (relayLogDir : string) (firstParse : bool) (currentUUID : string)
    (possibleLast : bool) (st st' : State G) (res : ParseResult) (b : string) (n : Z) :
  ParseSuffixForUUID H currentUUID = inr (b, n) ->
  parseFile H env relayLogFile offset relayLogDir firstParse currentUUID possibleLast st
  = (st', Ok res) ->
  sent st'
  = (sent st
     ++ map (asReceived H (SuffixIntToStr H n))
            (filter sentOn
               (eventsOfParse env relayLogFile offset
                              (Join H relayLogDir relayLogFile) firstParse st)))%list
  /\ uuids (reader st') = uuids (reader st)
  /\ RelayDir (reader st') = RelayDir (reader st).
Proof.
  intros Hs Hrun.
  pose proof (parseFile_state G H env relayLogFile offset relayLogDir firstParse
                currentUUID possibleLast st b n Hs) as Hst.
  rewrite Hrun in Hst. cbn [fst] in Hst. rewrite Hst, parseEvents_deliver.
  assert (Hno : forall msg,
            snd (deliver H (SuffixIntToStr H n) offset
                   (eventsOfParse env relayLogFile offset
                      (Join H relayLogDir relayLogFile) firstParse st) st)
            <> Panic msg).
  { intros msg Hp. revert Hrun. unfold parseFile. rewrite Hs. cbv zeta.
    unfold bind at 1. rewrite parseEvents_deliver.
    destruct (deliver H _ offset _ st) as [st1 [p1 | err | m]]; cbn [snd] in Hp;
      discriminate. }
  destruct (deliver_sent (SuffixIntToStr H n) _ offset st Hno) as (Hsent & Hu & Hd & _).
  repeat split; assumption.
Qed.

Lemma parseFile_keeps_index (env : Env G) (relayLogFile : string) (offset : Z)
    (relayLogDir : string) (firstParse : bool) (currentUUID : string)
    (possibleLast : bool) (st st' : State G) (res : ParseResult) :
  parseFile H env relayLogFile offset relayLogDir firstParse currentUUID possibleLast st
  = (st', Ok res) ->
  uuids (reader st') = uuids (reader st) /\ RelayDir (reader st') = RelayDir (reader st).
Proof.
  intros Hrun.
  destruct (ParseSuffixForUUID H currentUUID) as [e0 | [b n]] eqn:Hs.
  { unfold parseFile in Hrun. rewrite Hs in Hrun. discriminate. }
  destruct (parseFile_success_state _ _ _ _ _ _ _ _ _ _ b n Hs Hrun) as (_ & Hu & Hd).
  split; assumption.
Qed.


(** The results of a successful [parseFile], by the switch flag. *)
Lemma parseFile_result_shape (env : Env G) (relayLogFile : string) (offset : Z)
    (relayLogDir : string) (firstParse : bool) (currentUUID : string)
    (possibleLast : bool) (st st' : State G) (res : ParseResult) :
  parseFile H env relayLogFile offset relayLogDir firstParse currentUUID possibleLast st
  = (st', Ok res) ->
  (needSwitch res = true ->
     possibleLast = true
     /\ latestPos res = 0
     /\ nextUUID res <> ""
     /\ nextUUID res = fst (getNextUUID H (reader st') currentUUID)
     /\ getFirstBinlogName H (reader st') (fsSwitch env) (nextUUID res)
        = Ok (nextBinlogName res))
  /\ (needSwitch res = false -> nextUUID res = "" /\ nextBinlogName res = "").
Proof.
  unfold parseFile.
  destruct (ParseSuffixForUUID H currentUUID) as [e0 | [b n]]; [ discriminate | ].
  cbv zeta. unfold bind at 1.
  destruct (parseEvents H env _ _ _ _ _ st) as [st1 [p1 | err | msg]]; try discriminate.
  assert (Hafter :
    afterDecode H env relayLogFile relayLogDir (Join H relayLogDir relayLogFile)
                currentUUID possibleLast p1 st1 = (st', Ok res) ->
    (needSwitch res = true ->
       possibleLast = true
       /\ latestPos res = 0
       /\ nextUUID res <> ""
       /\ nextUUID res = fst (getNextUUID H (reader st') currentUUID)
       /\ getFirstBinlogName H (reader st') (fsSwitch env) (nextUUID res)
          = Ok (nextBinlogName res))
    /\ (needSwitch res = false -> nextUUID res = "" /\ nextBinlogName res = "")).
  { unfold afterDecode. destruct possibleLast; cbn [negb].
    - run.
      destruct (needSwitchSubDir H (reader st1) (fsSwitch env) currentUUID _ p1)
        as [d | e | msg] eqn:Hd; try discriminate.
      destruct (sdNeedReParse d) eqn:Hre.
      { intros E; injection E as _ <-. cbn. split; [ discriminate | split; reflexivity ]. }
      destruct (sdNeedSwitch d) eqn:Hsw.
      + intros E; injection E as <- <-. cbn. split; [ intros _ | discriminate ].
        revert Hd. unfold needSwitchSubDir.
        destruct (len (fst (getNextUUID H (reader st1) currentUUID)) =? 0) eqn:Hl.
        { intros E; injection E as <-. discriminate Hsw. }
        destruct (getFirstBinlogName H (reader st1) (fsSwitch env) _)
          as [first | e | msg] eqn:Hf; try discriminate.
        destruct (fileSizeUpdated (fsSwitch env) _ p1) as [c | e | msg]; try discriminate.
        destruct (c <? 0); [ discriminate | ].
        destruct (c >? 0); intros E; injection E as <-; [ discriminate Hsw | ].
        cbn. repeat split; try assumption.
        intros E0. rewrite E0 in Hl. discriminate Hl.
      + destruct (relaySubDirUpdated _ _ _ _ _) as [u | e | msg]; try discriminate.
        destruct (HasSuffix u relayLogFile);
          intros E; injection E as _ <-; cbn;
          (split; [ discriminate | split; reflexivity ]).
    - run. intros E; injection E as _ <-. cbn.
      split; [ discriminate | split; reflexivity ]. }
  destruct (softEOF possibleLast _); [ exact Hafter | ].
  destruct (snd (decode env _ offset)); [ discriminate | exact Hafter ].
Qed.

Lemma getFirstBinlogName_RelayDir (r r' : BinlogReader) (fs : FileSystem) (uuid : string) :
  RelayDir r = RelayDir r' ->
  getFirstBinlogName H r fs uuid = getFirstBinlogName H r' fs uuid.
Proof. intros E. unfold getFirstBinlogName. rewrite E. reflexivity. Qed.

Lemma getNextUUID_uuids (r r' : BinlogReader) (cur : string) :
  uuids r = uuids r' -> getNextUUID H r cur = getNextUUID H r' cur.
Proof. intros E. unfold getNextUUID. rewrite E. reflexivity. Qed.

(** X18.  When [parseFile] reports a switch, the latest position returned is
    0, the next UUID is not empty and is the one [getNextUUID] gives for the
    current epoch, and the next file name is the first binlog name of that
    epoch's directory. *)
Theorem parseFile_switch_result (env : Env G) (relayLogFile : string) (offset : Z)
    (relayLogDir : string) (firstParse : bool) (currentUUID : string)
    (possibleLast : bool) (st st' : State G) (res : ParseResult) :
  parseFile H env relayLogFile offset relayLogDir firstParse currentUUID possibleLast st
  = (st', Ok res) ->
  needSwitch res = true ->
  latestPos res = 0
  /\ nextUUID res <> ""
  /\ nextUUID res = fst (getNextUUID H (reader st) currentUUID)
  /\ getFirstBinlogName H (reader st) (fsSwitch env) (nextUUID res)
     = Ok (nextBinlogName res).
Proof.
  intros Hrun Hsw.
  destruct (parseFile_result_shape _ _ _ _ _ _ _ _ _ _ Hrun) as (Hyes & _).
  destruct (Hyes Hsw) as (_ & Hp & Hne & Hnext & Hfirst).
  destruct (parseFile_keeps_index _ _ _ _ _ _ _ _ _ _ Hrun) as (Hu & Hd).
  repeat split; try assumption.
  - rewrite Hnext. apply f_equal. apply getNextUUID_uuids. exact Hu.
  - rewrite <- Hfirst. apply getFirstBinlogName_RelayDir. symmetry. exact Hd.
Qed.
End ReaderMore.

(** ** The reader: the loops and the entry points *)

Section LoopProperties.
Import Replication Streamer Driver.

Variable G : Type.
Variable H : Helpers.

Ltac run := unfold bind, recordServerID, send, ret, panic, fail, getReader.

(** *** Strings *)





(** *** One file *)




(** What a return of [parseFileAsPossible] tells. *)
Lemma parseFileAsPossible_outcome (fuel : nat) (w : World G)
    (relayLogFile relayLogDir currentUUID : string) (possibleLast : bool) :
  forall (t : nat) (offset : Z) (firstParse : bool) (st st' : State G)
         (o : FileOutcome) (t' : nat),
  parseFileAsPossible H fuel w t relayLogFile offset relayLogDir firstParse
                      currentUUID possibleLast st = (st', Ok (Some (o, t'))) ->
  (t < t' <= t + fuel)%nat
  /\ uuids (reader st') = uuids (reader st)
  /\ (foNeedSwitch o = true ->
        possibleLast = true
        /\ foLatestPos o = 0
        /\ foNextUUID o <> ""
        /\ foNextUUID o = fst (getNextUUID H (reader st) currentUUID))
  /\ (foNeedSwitch o = false -> foNextUUID o = "" /\ foNextBinlogName o = "").
Proof.
  induction fuel as [ | fuel IH]; intros t offset firstParse st st' o t';
    cbn [parseFileAsPossible]; [ discriminate | ].
  destruct (parseFile H (envAt w t) relayLogFile offset relayLogDir firstParse
                      currentUUID possibleLast st) as [st1 [res | e1 | msg]] eqn:Hrun;
    try discriminate.
  destruct (parseFile_keeps_index G H _ _ _ _ _ _ _ _ _ _ Hrun) as (Hu & _).
  destruct (needReParse res).
  - intros Hrec. destruct (IH _ _ _ _ _ _ _ Hrec) as (Ht & Hu' & Hsw & Hno).
    split; [ lia | ]. split; [ congruence | ]. split; [ | exact Hno ].
    intros Ho. destruct (Hsw Ho) as (Hl & Hp & Hne & Hnext).
    repeat split; try assumption.
    rewrite Hnext. apply f_equal. apply (getNextUUID_uuids H). exact Hu.
  - intros E; injection E as <- <- <-.
    destruct (parseFile_result_shape G H _ _ _ _ _ _ _ _ _ _ Hrun) as (Hsw & Hno).
    cbn [foNeedSwitch foLatestPos foNextUUID foNextBinlogName].
    split; [ lia | ]. split; [ exact Hu | ]. split; [ | exact Hno ].
    intros Ho. destruct (Hsw Ho) as (Hl & Hp & Hne & Hnext & _).
    repeat split; try assumption.
    rewrite Hnext. apply f_equal. apply (getNextUUID_uuids H). exact Hu.
Qed.


(** *** One directory *)

Lemma parseFiles_outcome (fuel : nat) (w : World G) (dir currentUUID : string)
    (pos : Position) (files : list string) :
  forall (t : nat) (first firstParse : bool) (lp : Z) (ln : string)
         (st st' : State G) (p : DirPass) (t' : nat),
  parseFiles H fuel w t dir currentUUID pos files first firstParse lp ln st
  = (st', Ok (Some (p, t'))) ->
  uuids (reader st') = uuids (reader st)
  /\ match p with
     | PassSwitch u _ =>
         u <> "" /\ u = fst (getNextUUID H (reader st) currentUUID)
     | PassDone _ _ => True
     end.
Proof.
  induction files as [ | f rest IH]; intros t first firstParse lp ln st st' p t';
    cbn [parseFiles].
  - unfold ret. intros E; injection E as <- <- _. split; [ reflexivity | exact I ].
  - destruct (first && negb (HasSuffix f (Name pos))); [ discriminate | ].
    cbv zeta.
    destruct (parseFileAsPossible H fuel w t f _ dir _ currentUUID _ st)
      as [st1 [[[o t1] | ] | e | msg]] eqn:Hrun; try discriminate.
    destruct (parseFileAsPossible_outcome _ _ _ _ _ _ _ _ _ _ _ _ _ Hrun)
      as (_ & Hu & Hsw & _).
    destruct (foNeedSwitch o).
    + intros E; injection E as <- <- _.
      destruct (Hsw eq_refl) as (_ & _ & Hne & Hnext).
      split; [ exact Hu | split; assumption ].
    + intros Hrec. destruct (IH _ _ _ _ _ _ _ _ _ Hrec) as (Hu' & Hp).
      split; [ congruence | ].
      destruct p as [u n | lp' ln']; [ | exact I ].
      destruct Hp as [Hne Hnext]. split; [ exact Hne | ].
      rewrite Hnext. apply f_equal. apply (getNextUUID_uuids H). exact Hu.
Qed.

Lemma parseDirLoop_outcome (w : World G) (dir currentUUID : string) (fuel : nat) :
  forall (t : nat) (pos : Position) (firstParse : bool) (st st' : State G)
         (o : DirOutcome) (t' : nat),
  parseDirLoop H fuel w t dir currentUUID pos firstParse st = (st', Ok (Some (o, t'))) ->
  doNeedSwitch o = true
  /\ doNextUUID o <> ""
  /\ doNextUUID o = fst (getNextUUID H (reader st) currentUUID)
  /\ uuids (reader st') = uuids (reader st).
Proof.
  induction fuel as [ | fuel IH]; intros t pos firstParse st st' o t';
    cbn [parseDirLoop]; [ discriminate | ].
  destruct (collectBinlogFilesAt w t dir (Name pos)) as [e | files]; [ discriminate | ].
  destruct (Z.of_nat (List.length files) =? 0); [ discriminate | ].
  unfold bind at 1.
  destruct (parseFiles H (S fuel) w (S t) dir currentUUID pos files true firstParse 0 "" st)
    as [st1 [[[p t1] | ] | e | msg]] eqn:Hrun; try discriminate.
  destruct (parseFiles_outcome _ _ _ _ _ _ _ _ _ _ _ _ _ _ _ Hrun) as (Hu & Hp).
  destruct p as [u n | lp ln].
  - unfold ret. intros E; injection E as <- <- _. cbn.
    destruct Hp as [Hne Hnext]. repeat split; assumption.
  - intros Hrec. destruct (IH _ _ _ _ _ _ _ Hrec) as (Hs & Hne & Hnext & Hu').
    repeat split; try assumption; [ | congruence ].
    rewrite Hnext. apply f_equal. apply (getNextUUID_uuids H). exact Hu.
Qed.

Lemma parseDirAsPossible_switch_flag (fuel : nat) (w : World G) (t : nat)
    (pos : Position) (st st' : State G) (o : DirOutcome) (t' : nat) :
  parseDirAsPossible H fuel w t pos st = (st', Ok (Some (o, t'))) ->
  doNeedSwitch o = true.
Proof.
  unfold parseDirAsPossible. run.
  destruct (extractPos H (reader st) pos) as [[[cur sfx] realPos] | e | msg];
    try discriminate.
  intros Hrun. apply (parseDirLoop_outcome _ _ _ _ _ _ _ _ _ _ _ Hrun).
Qed.

(** X22.  When [parseDirAsPossible] returns without an error, it reports a
    switch to a non-empty next UUID, the one [getNextUUID] gives for the
    epoch the position was bound to. *)
Theorem parseDirAsPossible_returns_switch (fuel : nat) (w : World G) (t : nat)
    (pos : Position) (st st' : State G) (o : DirOutcome) (t' : nat) :
  parseDirAsPossible H fuel w t pos st = (st', Ok (Some (o, t'))) ->
  doNeedSwitch o = true
  /\ doNextUUID o <> ""
  /\ exists (currentUUID uuidSuffix : string) (realPos : Position),
       extractPos H (reader st) pos = Ok (currentUUID, uuidSuffix, realPos)
       /\ doNextUUID o = fst (getNextUUID H (reader st) currentUUID).
Proof.
  unfold parseDirAsPossible. run.
  destruct (extractPos H (reader st) pos) as [[[cur sfx] realPos] | e | msg];
    try discriminate.
  intros Hrun.
  destruct (parseDirLoop_outcome _ _ _ _ _ _ _ _ _ _ _ Hrun) as (Hs & Hne & Hnext & _).
  repeat split; try assumption.
  exists cur, sfx, realPos. split; [ reflexivity | exact Hnext ].
Qed.


(** *** The epochs *)

(** X24.  [parseRelay] never returns the error for a finished directory
    without a switch, and never returns without an error. *)
Theorem parseRelay_never_not_supported (w : World G) (fuel : nat) :
  forall (t : nat) (pos : Position) (st : State G),
  snd (parseRelay H fuel w t pos st) <> Err (ErrNew noNextSubDirMessage)
  /\ snd (parseRelay H fuel w t pos st) <> Ok (Some tt).
Proof.
  induction fuel as [ | fuel IH]; intros t pos st; cbn [parseRelay].
  - split; discriminate.
  - destruct (parseDirAsPossible H (S fuel) w t pos st)
      as [st1 [[[o t1] | ] | e | msg]] eqn:Hrun; cbn [snd]; try (split; discriminate).
    rewrite (parseDirAsPossible_switch_flag _ _ _ _ _ _ _ _ Hrun). cbn [negb].
    destruct (switchPosition H (doNextUUID o) (doNextBinlogName o)) as [pos' | e | msg] eqn:Hp;
      cbn [snd]; try (split; discriminate).
    + apply IH.
    + split; [ | discriminate ].
      revert Hp. unfold switchPosition.
      destruct (ParseSuffixForUUID H (doNextUUID o)) as [e2 | [b n]];
        [ intros E; injection E as <-; discriminate | ].
      destruct (parseBinlogFile H (doNextBinlogName o));
        [ intros E; injection E as <-; discriminate | discriminate ].
Qed.

(** X25.  After a switch the position is the next epoch's first file, named
    with that epoch's suffix, at offset 4, and [extractPos] binds it to the
    next epoch with the first file's own name at offset 4. *)
Theorem switchPosition_binds_next_epoch (r : BinlogReader)
    (nextUUID nextBinlogName b : string) (n : Z) (parsed : binlogFile) :
  uuids r <> [] ->
  nextUUID <> "" ->
  ParseSuffixForUUID H nextUUID = inr (b, n) ->
  GetUUIDBySuffix H (uuids r) (SuffixIntToStr H n) = nextUUID ->
  SuffixIntToStr H n <> "" ->
  parseBinlogFile H nextBinlogName = inr parsed ->
  baseName parsed <> "" ->
  Index (baseName parsed) posUUIDSuffixSeparator = -1 ->
  constructBinlogFilename H (baseName parsed) (seq parsed) = nextBinlogName ->
  parseBinlogFile H (constructBinlogName parsed (SuffixIntToStr H n))
  = inr (mkBinlogFile (baseName parsed ++ posUUIDSuffixSeparator ++ SuffixIntToStr H n)
                      (seq parsed)) ->
  let pos := mkPosition (constructBinlogName parsed (SuffixIntToStr H n)) 4 in
  switchPosition H nextUUID nextBinlogName = Ok pos
  /\ extractPos H r pos = Ok (nextUUID, SuffixIntToStr H n, mkPosition nextBinlogName 4).
Proof.
  intros Hne Hu Hs Hget Hsfx Hp Hb Hidx Hname Hround pos. subst pos. split.
  - unfold switchPosition. rewrite Hs, Hp. reflexivity.
  - rewrite (extractPos_with_suffix H r
               (mkPosition (constructBinlogName parsed (SuffixIntToStr H n)) 4)
               (baseName parsed) (SuffixIntToStr H n) (seq parsed)
               Hne Hround Hb Hsfx Hidx).
    rewrite Hget, Hname. cbn [Pos].
    pose proof (len_positive nextUUID Hu) as Hpos.
    destruct (Z.gtb_spec (len nextUUID) 0); [ reflexivity | lia ].
Qed.

(** *** Start and close *)

(** X26.  [StartSync] with an empty file name, on a running reader, or with
    an index that cannot be loaded returns the error and leaves the reader
    as it was; the empty name is checked first. *)
Theorem StartSync_rejected (parseUUIDIndex : string -> error + list string)
    (h : Handle) (pos : Position) :
  (Name pos = "" -> StartSync parseUUIDIndex h pos = (h, Err ErrBinlogFileNotSpecified))
  /\ (Name pos <> "" -> running h = true ->
      StartSync parseUUIDIndex h pos = (h, Err ErrReaderRunning))
  /\ (forall e, Name pos <> "" -> running h = false ->
        parseUUIDIndex (indexPath (hReader h)) = inl e ->
        StartSync parseUUIDIndex h pos = (h, Err (ErrTrace (ErrTrace e)))).
Proof.
  unfold StartSync, updateUUIDs. repeat split.
  - intros ->. reflexivity.
  - intros Hn Hr. destruct (String.eqb_spec (Name pos) ""); [ contradiction | ].
    rewrite Hr. reflexivity.
  - intros e Hn Hr He. destruct (String.eqb_spec (Name pos) ""); [ contradiction | ].
    rewrite Hr, He. reflexivity.
Qed.

(** X27.  A successful [StartSync] was on a reader that was not running; it
    loads the index, resets the latest server id, and marks the reader
    running, so that every further [StartSync] with a file name is refused
    until [Close] clears the flag. *)
Theorem StartSync_one_stream (parseUUIDIndex : string -> error + list string)
    (h h' : Handle) (pos : Position) :
  StartSync parseUUIDIndex h pos = (h', Ok tt) ->
  running h = false
  /\ running h' = true
  /\ latestServerID (hReader h') = 0
  /\ parseUUIDIndex (indexPath (hReader h)) = inr (uuids (hReader h'))
  /\ (forall (parse2 : string -> error + list string) (pos2 : Position),
        Name pos2 <> "" ->
        StartSync parse2 h' pos2 = (h', Err ErrReaderRunning))
  /\ running (Close h') = false.
Proof.
  unfold StartSync, updateUUIDs.
  destruct (String.eqb (Name pos) ""); [ discriminate | ].
  destruct (running h) eqn:Hr; [ discriminate | ].
  destruct (parseUUIDIndex (indexPath (hReader h))) as [e | us]; [ discriminate | ].
  intros E; injection E as <-. cbn. repeat split.
  intros parse2 pos2 Hn.
  destruct (String.eqb_spec (Name pos2) ""); [ contradiction | reflexivity ].
Qed.
End LoopProperties.

(** ** The further properties on concrete runs *)

Section RunsOnConcreteInputs.
Import Replication Streamer Driver Boundaries Concrete Runs.

(** *** The location recorder *)

Lemma update_skipped_event_witness :
  update (recorderInDML "mysql-bin.000001" 120) heartbeatEvent
  = recorderInDML "mysql-bin.000001" 120
  /\ update (recorderInDML "mysql-bin.000001" 120) (artificialQueryEvent "COMMIT" 560)
     = recorderInDML "mysql-bin.000001" 120.
Proof.
  split.
  - apply (update_skipped_event GTID convertAny trimSpaceASCII
             (recorderInDML "mysql-bin.000001" 120) heartbeatEvent).
    left. right. left. reflexivity.
  - apply (update_skipped_event GTID convertAny trimSpaceASCII
             (recorderInDML "mysql-bin.000001" 120) (artificialQueryEvent "COMMIT" 560)).
    right. reflexivity.
Defined.

Lemma update_xid_event_witness :
  let l' := update (recorderInDML "mysql-bin.000001" 120) (xidEvent 560) in
  Syncer.txnEndLocation l' = Syncer.curEndLocation l'
  /\ Syncer.inDML l' = false
  /\ Syncer.LPosition (Syncer.curEndLocation l') = mkPosition "mysql-bin.000001" 560
  /\ Syncer.gtidSet (Syncer.curEndLocation l') = "g2".
Proof.
  exact (update_xid_event GTID convertAny trimSpaceASCII
           (recorderInDML "mysql-bin.000001" 120) (xidEvent 560) 77 "g2"
           eq_refl eq_refl).
Defined.

Lemma update_rotate_event_witness :
  update (recorderInDML "mysql-bin.000001" 120) (rotateEvent "mysql-bin.000001" 700)
  = recorderInDML "mysql-bin.000001" 120
  /\ (let l' := update (recorderInDML "mysql-bin.000001" 120)
                       (rotateEvent "mysql-bin.000002" 700) in
      Syncer.curEndLocation l' = locationAt "mysql-bin.000002" 4
      /\ Syncer.txnEndLocation l' = Syncer.curEndLocation l'
      /\ Syncer.inDML l' = true).
Proof.
  split.
  - apply (proj1 (update_rotate_event GTID convertAny trimSpaceASCII
                    (recorderInDML "mysql-bin.000001" 120)
                    (rotateEvent "mysql-bin.000001" 700) 4 "mysql-bin.000001"
                    eq_refl eq_refl)).
    reflexivity.
  - apply (proj2 (update_rotate_event GTID convertAny trimSpaceASCII
                    (recorderInDML "mysql-bin.000001" 120)
                    (rotateEvent "mysql-bin.000002" 700) 4 "mysql-bin.000002"
                    eq_refl eq_refl)).
    vm_compute. discriminate.
Defined.

Lemma updates_keep_txn_end_inside_transaction_witness :
  (let s := updates (recorderInDML "mysql-bin.000001" 120) (firstn 2 statements) in
   Syncer.inDML s = true
   /\ Syncer.txnEndLocation s = locationAt "mysql-bin.000001" 120
   /\ Syncer.endName s = "mysql-bin.000001")
  /\ (let s := updates (recorderInDML "mysql-bin.000001" 120) statements in
      Syncer.inDML s = true
      /\ Syncer.txnEndLocation s = locationAt "mysql-bin.000001" 120
      /\ Syncer.endName s = "mysql-bin.000001").
Proof.
  assert (Hall : Forall (fun e => closesTransaction trimSpaceASCII
                           (Syncer.endName (recorderInDML "mysql-bin.000001" 120)) e
                         = false) statements).
  { repeat constructor. }
  split.
  - exact (updates_keep_txn_end_inside_transaction GTID convertAny trimSpaceASCII
             (recorderInDML "mysql-bin.000001" 120) statements eq_refl Hall 2%nat).
  - exact (updates_keep_txn_end_inside_transaction GTID convertAny trimSpaceASCII
             (recorderInDML "mysql-bin.000001" 120) statements eq_refl Hall 4%nat).
Defined.

Lemma updates_txn_end_in_end_file_witness :
  let s := updates (recorderAt "mysql-bin.000001" 4)
                   (queryEvent "BEGIN" 120
                    :: statements ++ [rotateEvent "mysql-bin.000002" 0; rowsEvent 200]) in
  txnEndName s = Syncer.endName s.
Proof.
  apply (updates_txn_end_in_end_file GTID convertAny trimSpaceASCII
           (recorderAt "mysql-bin.000001" 4)).
  reflexivity.
Defined.

Lemma update_txn_end_old_or_new_witness :
  Syncer.txnEndLocation (update (recorderAt "mysql-bin.000001" 120) (rowsEvent 380))
  = locationAt "mysql-bin.000001" 120.
Proof.
  apply (proj2 (update_txn_end_old_or_new GTID convertAny trimSpaceASCII
                  (recorderAt "mysql-bin.000001" 120) (rowsEvent 380))).
  right. reflexivity.
Defined.

Lemma mariadb_transaction_txn_end_witness :
  let l := recorderAt "mysql-bin.000001" 4 in
  (forall k : nat,
     Syncer.txnEndLocation (updates l (mariadbGTIDEvent 0 120 :: firstn k statements))
     = Syncer.txnEndLocation l)
  /\ (let s := updates l (mariadbGTIDEvent 0 120 :: statements ++ [xidEvent 560]) in
      Syncer.txnEndLocation s = Syncer.curEndLocation s /\ Syncer.inDML s = false).
Proof.
  apply (mariadb_transaction_txn_end GTID convertAny trimSpaceASCII
           (recorderAt "mysql-bin.000001" 4) (mariadbGTIDEvent 0 120) 0 statements
           (xidEvent 560) 77 "g2").
  - reflexivity.
  - reflexivity.
  - reflexivity.
  - repeat constructor.
  - reflexivity.
  - reflexivity.
Defined.

(** *** The reader *)

Lemma getNextUUID_in_order_witness :
  getNextUUID specHelpers threeEpochs "u2.000002" = ("u3.000003", "000003")
  /\ getNextUUID specHelpers threeEpochs "u3.000003" = ("", "")
  /\ getNextUUID specHelpers threeEpochs "u9.000009" = ("", "").
Proof.
  assert (Hnd : NoDup (uuids threeEpochs)).
  { repeat (constructor; [ cbn; intuition discriminate | ]). constructor. }
  destruct (getNextUUID_in_order specHelpers threeEpochs "u2.000002" Hnd) as (Hnext & _ & _).
  destruct (getNextUUID_in_order specHelpers threeEpochs "u3.000003" Hnd) as (_ & Hlast & _).
  destruct (getNextUUID_in_order specHelpers threeEpochs "u9.000009" Hnd) as (_ & _ & Hnone).
  split; [ | split ].
  - apply (Hnext 1%nat "u3.000003"); reflexivity.
  - apply (Hlast 2%nat); reflexivity.
  - apply Hnone. cbn. intuition discriminate.
Defined.

Lemma getFirstBinlogName_ok_witness :
  getFirstBinlogName specHelpers twoEpochs
    (fsOnly ["relay.meta"; "mysql-bin.000001"; "mysql-bin.000002"]) "u2.000002"
  = Ok "mysql-bin.000001".
Proof.
  apply (proj2 (getFirstBinlogName_ok specHelpers twoEpochs
                  (fsOnly ["relay.meta"; "mysql-bin.000001"; "mysql-bin.000002"])
                  "u2.000002" "mysql-bin.000001")).
  exists ["relay.meta"], ["mysql-bin.000002"].
  split; [ reflexivity | ].
  split; [ repeat constructor | ].
  split; [ discriminate | ].
  exists (mkBinlogFile "mysql-bin" "000001"). reflexivity.
Defined.

Lemma getFirstBinlogName_errors_witness :
  getFirstBinlogName specHelpers twoEpochs (fsOnly ["relay.meta"]) "u2.000002"
  = Err (ErrNotFound "binlog files in dir relay/u2.000002")
  /\ getFirstBinlogName specHelpers twoEpochs
       (fsOnly ["relay.meta"; "README"; "mysql-bin.000001"]) "u2.000002"
     = Err (ErrNotValid "binlog file README").
Proof.
  assert (Hm : Forall (fun m => m = MetaFilename specHelpers) ["relay.meta"]).
  { repeat constructor. }
  split.
  - apply (proj1 (getFirstBinlogName_errors specHelpers twoEpochs (fsOnly ["relay.meta"])
                    "u2.000002" ["relay.meta"] Hm)).
    reflexivity.
  - apply (proj2 (getFirstBinlogName_errors specHelpers twoEpochs
                    (fsOnly ["relay.meta"; "README"; "mysql-bin.000001"])
                    "u2.000002" ["relay.meta"] Hm)
             "README" ["mysql-bin.000001"] (ErrNew "invalid binlog filename README")).
    + reflexivity.
    + discriminate.
    + reflexivity.
Defined.

Lemma relaySubDirUpdated_outcomes_witness :
  relaySubDirUpdated (watcherOf "relay/u1.000001/mysql-bin.000004") (fsWith 1500 [])
                     "relay/u1.000001" lastFile 1300
  = Ok lastFile
  /\ relaySubDirUpdated (watcherOf "relay/u1.000001/mysql-bin.000004") (fsWith 1300 [])
                        "relay/u1.000001" lastFile 1300
     = Ok "relay/u1.000001/mysql-bin.000004"
  /\ exists msg,
       relaySubDirUpdated (watcherOf "relay/u1.000001/mysql-bin.000004") (fsWith 900 [])
                          "relay/u1.000001" lastFile 1300
       = Panic msg.
Proof.
  split; [ | split ].
  - apply (relaySubDirUpdated_outcomes (watcherOf "relay/u1.000001/mysql-bin.000004")
             (fsWith 1500 []) "relay/u1.000001" lastFile 1300 1500);
      reflexivity.
  - apply (relaySubDirUpdated_outcomes (watcherOf "relay/u1.000001/mysql-bin.000004")
             (fsWith 1300 []) "relay/u1.000001" lastFile 1300 1300);
      reflexivity.
  - apply (relaySubDirUpdated_outcomes (watcherOf "relay/u1.000001/mysql-bin.000004")
             (fsWith 900 []) "relay/u1.000001" lastFile 1300 900);
      reflexivity.
Defined.

Lemma extractPos_of_constructed_name_witness :
  extractPos specHelpers twoEpochs
    (mkPosition (constructBinlogName (mkBinlogFile "mysql-bin" "000003") "000001") 1234)
  = Ok ("u1.000001", "000001", mkPosition "mysql-bin.000003" 1234).
Proof.
  apply (extractPos_of_constructed_name specHelpers twoEpochs
           (mkBinlogFile "mysql-bin" "000003") "000001" 1234).
  - discriminate.
  - discriminate.
  - discriminate.
  - reflexivity.
  - reflexivity.
  - vm_compute. discriminate.
Defined.

Lemma extractPos_unknown_suffix_witness :
  extractPos specHelpers twoEpochs (mkPosition "mysql-bin|000009.000003" 1234)
  = Err (ErrNotFound "UUID suffix 000009 with UUIDs [u1.000001 u2.000002]").
Proof.
  apply (extractPos_unknown_suffix specHelpers twoEpochs
           (mkPosition "mysql-bin|000009.000003" 1234) "mysql-bin" "000009" "000003").
  - discriminate.
  - reflexivity.
  - discriminate.
  - discriminate.
  - reflexivity.
  - reflexivity.
Defined.




Lemma parseFile_switch_result_witness :
  let res := mkParse true false 0 "u2.000002" "mysql-bin.000001" in
  latestPos res = 0
  /\ nextUUID res <> ""
  /\ nextUUID res = fst (getNextUUID specHelpers twoEpochs "u1.000001")
  /\ getFirstBinlogName specHelpers twoEpochs (fsWith 1300 u2Files) (nextUUID res)
     = Ok (nextBinlogName res).
Proof.
  exact (parseFile_switch_result GTID specHelpers
           (envOf [queryEvent "x" 1300] None (fsWith 1300 u2Files))
           "mysql-bin.000003" 4 "relay/u1.000001" true "u1.000001" true
           (startState twoEpochs)
           (mkState (set_latestServerID twoEpochs 1) [fakeRotate 4; queryEvent "x" 1300])
           (mkParse true false 0 "u2.000002" "mysql-bin.000001")
           eq_refl eq_refl).
Defined.

(** *** The loops *)



Lemma parseDirAsPossible_returns_switch_witness :
  let o := mkDirOutcome true "u2.000002" "mysql-bin.000001" in
  doNeedSwitch o = true
  /\ doNextUUID o <> ""
  /\ exists (currentUUID uuidSuffix : string) (realPos : Position),
       extractPos specHelpers (reader (startState twoEpochs))
                  (mkPosition "mysql-bin|000001.000003" 4)
       = Ok (currentUUID, uuidSuffix, realPos)
       /\ doNextUUID o = fst (getNextUUID specHelpers (reader (startState twoEpochs))
                                          currentUUID).
Proof.
  exact (parseDirAsPossible_returns_switch GTID specHelpers 5
           (finishedWorld ["mysql-bin.000003"]) 0
           (mkPosition "mysql-bin|000001.000003" 4) (startState twoEpochs)
           (mkState (set_latestServerID twoEpochs 1) [fakeRotate 4; queryEvent "x" 1300])
           (mkDirOutcome true "u2.000002" "mysql-bin.000001") 2%nat
           eq_refl).
Defined.


Lemma switchPosition_binds_next_epoch_witness :
  let pos := mkPosition (constructBinlogName (mkBinlogFile "mysql-bin" "000001")
                                             (SuffixIntToStr specHelpers 2)) 4 in
  switchPosition specHelpers "u2.000002" "mysql-bin.000001" = Ok pos
  /\ extractPos specHelpers twoEpochs pos
     = Ok ("u2.000002", SuffixIntToStr specHelpers 2, mkPosition "mysql-bin.000001" 4).
Proof.
  apply (switchPosition_binds_next_epoch specHelpers twoEpochs "u2.000002"
           "mysql-bin.000001" "u2" 2 (mkBinlogFile "mysql-bin" "000001")).
  - discriminate.
  - discriminate.
  - reflexivity.
  - reflexivity.
  - vm_compute. discriminate.
  - reflexivity.
  - discriminate.
  - reflexivity.
  - reflexivity.
  - reflexivity.
Defined.

(** *** Start and close *)

Lemma StartSync_rejected_witness :
  StartSync indexOnDisk (mkHandle twoEpochs true false) (mkPosition "" 4)
  = (mkHandle twoEpochs true false, Err ErrBinlogFileNotSpecified)
  /\ StartSync indexOnDisk (mkHandle twoEpochs true false) (mkPosition "mysql-bin.000003" 4)
     = (mkHandle twoEpochs true false, Err ErrReaderRunning)
  /\ StartSync noIndex idle (mkPosition "mysql-bin.000003" 4)
     = (idle, Err (ErrTrace (ErrTrace
          (ErrExternal "open relay/server-uuid.index: no such file or directory")))).
Proof.
  split; [ | split ].
  - apply (proj1 (StartSync_rejected indexOnDisk (mkHandle twoEpochs true false)
                    (mkPosition "" 4))).
    reflexivity.
  - apply (proj1 (proj2 (StartSync_rejected indexOnDisk (mkHandle twoEpochs true false)
                           (mkPosition "mysql-bin.000003" 4)))).
    + discriminate.
    + reflexivity.
  - apply (proj2 (proj2 (StartSync_rejected noIndex idle
                           (mkPosition "mysql-bin.000003" 4)))).
    + discriminate.
    + reflexivity.
    + reflexivity.
Defined.

Lemma StartSync_one_stream_witness :
  let h' := mkHandle twoEpochs true false in
  running idle = false
  /\ running h' = true
  /\ latestServerID (hReader h') = 0
  /\ indexOnDisk (indexPath (hReader idle)) = inr (uuids (hReader h'))
  /\ (forall (parse2 : string -> error + list string) (pos2 : Position),
        Name pos2 <> "" ->
        StartSync parse2 h' pos2 = (h', Err ErrReaderRunning))
  /\ running (Close h') = false.
Proof.
  exact (StartSync_one_stream indexOnDisk idle (mkHandle twoEpochs true false)
           (mkPosition "mysql-bin.000003" 4) eq_refl).
Defined.
End RunsOnConcreteInputs.
